(** * Spreadsheet import of the expense tracker: [services/excelService.ts]

    A shallow embedding of [ExcelService.parseFile] and of its helpers
    [toTitleCase], [generateRandomColor], [resolveCategory], [getVal] and
    [parseDate], followed by the properties of the import pipeline.  The
    callers of the import are embedded with it: [getCategoryName] of the
    upload dialog, [addExpenses] and [deleteCategory] of [App.tsx].

    Conventions of the embedding.
    - A JavaScript string is a Rocq [string] of ASCII characters; case
      mapping and white space are the ASCII ones, other bytes are left
      alone.
    - A JavaScript number is the decimal [mant * 10 ^ expo] that denotes it
      ([JFin]), an infinity or NaN.  [parseFloat] yields the decimal of the
      literal it reads; the two places where rounding to a double changes a
      comparison with zero (underflow) or the class of the value (overflow)
      are part of [round_double].
    - A sheet is what [XLSX.utils.sheet_to_json] returns: a list of rows,
      each row the list of its (header, cell) pairs in [Object.keys] order.
    - What the host decides (time zone, clock, [Date.parse], [Date]
      printing, [uuidv4], [Math.random]) is a field of [Host].  Date cells
      hold valid dates, as the sheet reader makes them.
    - [parseFile] is the import when the answer of the oracle is a value
      with properties or the oracle fails; nothing is thrown then.
      [Promise.parseFile] is the import with the answer [null] as well,
      for which reading a property throws and the promise is rejected. *)

From Stdlib Require Import ZArith List Bool Ascii String Lia.
From Stdlib Require Import DecimalString DecimalNat.
Import ListNotations.
Local Open Scope string_scope.
Local Open Scope Z_scope.

(** ** JavaScript strings *)

Module JsString.

Definition code (c : ascii) : nat := nat_of_ascii c.

Definition is_upper (c : ascii) : bool :=
  (65 <=? code c)%nat && (code c <=? 90)%nat.

Definition is_lower (c : ascii) : bool :=
  (97 <=? code c)%nat && (code c <=? 122)%nat.

Definition is_digit (c : ascii) : bool :=
  (48 <=? code c)%nat && (code c <=? 57)%nat.

(** [\s]: tab, line feed, vertical tab, form feed, carriage return, space. *)
Definition is_space (c : ascii) : bool :=
  ((9 <=? code c)%nat && (code c <=? 13)%nat) || (code c =? 32)%nat.

(** [\w]: letters, digits and the underscore. *)
Definition is_word (c : ascii) : bool :=
  is_upper c || is_lower c || is_digit c || (code c =? 95)%nat.

Definition lower_char (c : ascii) : ascii :=
  if is_upper c then ascii_of_nat (code c + 32) else c.

Definition upper_char (c : ascii) : ascii :=
  if is_lower c then ascii_of_nat (code c - 32) else c.

Fixpoint map_chars (f : ascii -> ascii) (s : string) : string :=
  match s with
  | EmptyString => EmptyString
  | String c r => String (f c) (map_chars f r)
  end.

(** [String.prototype.toLowerCase] *)
Definition toLowerCase (s : string) : string := map_chars lower_char s.

Fixpoint trimStart (s : string) : string :=
  match s with
  | EmptyString => EmptyString
  | String c r => if is_space c then trimStart r else s
  end.

Fixpoint trimEnd (s : string) : string :=
  match s with
  | EmptyString => EmptyString
  | String c r =>
      match trimEnd r with
      | EmptyString => if is_space c then EmptyString else String c EmptyString
      | r' => String c r'
      end
  end.

(** [String.prototype.trim] *)
Definition trim (s : string) : string := trimEnd (trimStart s).

(** [String.prototype.includes] *)
Fixpoint includes (s sub : string) : bool :=
  String.prefix sub s ||
  match s with
  | EmptyString => false
  | String _ r => includes r sub
  end.

(** [s.replace(/,/g, '')] *)
Fixpoint remove_commas (s : string) : string :=
  match s with
  | EmptyString => EmptyString
  | String c r =>
      if (code c =? 44)%nat then remove_commas r else String c (remove_commas r)
  end.

(** The truth value of a string: only [''] is falsy. *)
Definition truthy (s : string) : bool := negb (s =? "")%string.

(** Membership in an array of strings, [Array.prototype.includes]. *)
Definition mem (x : string) (l : list string) : bool :=
  existsb (String.eqb x) l.

(** A [Set<string>] in insertion order: [add] keeps the first occurrence. *)
Definition set_add (x : string) (l : list string) : list string :=
  if mem x l then l else l ++ [x].

End JsString.

Import JsString.

(** [toTitleCase]: every match of [/\w\S*/g] gets its first character in
    upper case and the rest in lower case.  [inword] says that the scan is
    inside a match. *)
Fixpoint titleCase_scan (inword : bool) (s : string) : string :=
  match s with
  | EmptyString => EmptyString
  | String c r =>
      if inword then
        if is_space c then String c (titleCase_scan false r)
        else String (lower_char c) (titleCase_scan true r)
      else
        if is_word c then String (upper_char c) (titleCase_scan true r)
        else String c (titleCase_scan false r)
  end.

Definition toTitleCase (str : string) : string := titleCase_scan false str.

(** ** JavaScript numbers *)

Inductive jsnum : Type :=
| JNaN
| JInf (negative : bool)
| JFin (mant expo : Z).

Module JsNumber.

(** Leading decimal digits of a string and what follows them. *)
Fixpoint span_digits (s : string) : string * string :=
  match s with
  | EmptyString => (EmptyString, EmptyString)
  | String c r =>
      if is_digit c
      then let '(d, rest) := span_digits r in (String c d, rest)
      else (EmptyString, s)
  end.

Fixpoint digits_value (acc : Z) (s : string) : Z :=
  match s with
  | EmptyString => acc
  | String c r => digits_value (10 * acc + (Z.of_nat (code c) - 48)) r
  end.

(** The smallest magnitude that does not round to zero lies just above
    [2^-1075]; the largest that does not round to an infinity just below
    [2^1024 - 2^970]. *)
Definition underflows (m e : Z) : bool :=
  if 0 <=? e then m =? 0
  else Z.abs m * 2 ^ 1075 <=? 10 ^ (- e).

Definition overflows (m e : Z) : bool :=
  if 0 <=? e then 2 ^ 1024 - 2 ^ 970 <=? Z.abs m * 10 ^ e
  else (2 ^ 1024 - 2 ^ 970) * 10 ^ (- e) <=? Z.abs m.

Definition round_double (m e : Z) : jsnum :=
  if underflows m e then JFin 0 0
  else if overflows m e then JInf (m <? 0)
  else JFin m e.

Definition apply_sign (neg : bool) (m : Z) : Z := if neg then - m else m.

(** Sign of a literal: the string after it and whether it was [-]. *)
Definition read_sign (s : string) : bool * string :=
  match s with
  | String "-" r => (true, r)
  | String "+" r => (false, r)
  | _ => (false, s)
  end.

(** [ExponentPart]: [e] or [E], a signed integer with at least one digit;
    anything else is not part of the literal and counts for 0. *)
Definition read_exponent (s : string) : Z :=
  match s with
  | String c r =>
      if (code c =? 101)%nat || (code c =? 69)%nat then
        let '(neg, r1) := read_sign r in
        let '(ds, _) := span_digits r1 in
        if (ds =? "")%string then 0 else apply_sign neg (digits_value 0 ds)
      else 0
  | EmptyString => 0
  end.

(** [parseFloat] on a string: white space is skipped, then the longest
    prefix that is a [StrDecimalLiteral] is read; NaN when there is none. *)
Definition parseFloat (s : string) : jsnum :=
  let '(neg, s1) := read_sign (trimStart s) in
  if String.prefix "Infinity" s1 then JInf neg
  else
    let '(ip, r1) := span_digits s1 in
    let '(fp, r2) :=
      match r1 with
      | String "." r => span_digits r
      | _ => (EmptyString, r1)
      end in
    if (ip =? "")%string && (fp =? "")%string then JNaN
    else
      round_double (apply_sign neg (digits_value 0 (ip ++ fp)))
                   (read_exponent r2 - Z.of_nat (String.length fp)).

Definition isNaN (n : jsnum) : bool :=
  match n with JNaN => true | _ => false end.

(** [Math.abs] *)
Definition abs (n : jsnum) : jsnum :=
  match n with
  | JNaN => JNaN
  | JInf _ => JInf false
  | JFin m e => JFin (Z.abs m) e
  end.

(** [n === 0] *)
Definition is_zero (n : jsnum) : bool :=
  match n with
  | JFin m e => underflows m e
  | _ => false
  end.

(** [n > 0] *)
Definition is_positive (n : jsnum) : bool :=
  match n with
  | JNaN => false
  | JInf neg => negb neg
  | JFin m e => (0 <? m) && negb (underflows m e)
  end.

(** The truth value of a number: 0 and NaN are falsy. *)
Definition truthy (n : jsnum) : bool := negb (isNaN n) && negb (is_zero n).

Definition nat_digits (n : nat) : string :=
  NilZero.string_of_uint (Nat.to_uint n).

Definition Z_digits (z : Z) : string :=
  NilZero.string_of_uint (N.to_uint (Z.to_N z)).

Fixpoint zeros (n : nat) : string :=
  match n with
  | O => EmptyString
  | S k => String "0" (zeros k)
  end.

(** Trailing zeros of a digit string: what is left and how many went. *)
Fixpoint strip_zeros (s : string) : string * nat :=
  match s with
  | EmptyString => (EmptyString, O)
  | String c r =>
      match strip_zeros r with
      | (EmptyString, k) =>
          if (code c =? 48)%nat then (EmptyString, S k)
          else (String c EmptyString, k)
      | (r', k) => (String c r', k)
      end
  end.

(** [Number::toString] in radix 10, on the digits [ds] (no trailing zero,
    [k] of them) of a positive value [0.ds * 10^n]. *)
Definition positive_toString (ds : string) (n : Z) : string :=
  let k := Z.of_nat (String.length ds) in
  if (k <=? n) && (n <=? 21) then ds ++ zeros (Z.to_nat (n - k))
  else if (0 <? n) && (n <=? 21) then
    substring 0 (Z.to_nat n) ds ++ "." ++
    substring (Z.to_nat n) (Z.to_nat (k - n)) ds
  else if (-6 <? n) && (n <=? 0) then
    "0." ++ zeros (Z.to_nat (- n)) ++ ds
  else
    let ex := (if n - 1 <? 0 then "-" else "+") ++ Z_digits (Z.abs (n - 1)) in
    match ds with
    | String d EmptyString => String d EmptyString ++ "e" ++ ex
    | String d rest => String d EmptyString ++ "." ++ rest ++ "e" ++ ex
    | EmptyString => EmptyString
    end.

Definition toString (x : jsnum) : string :=
  match x with
  | JNaN => "NaN"
  | JInf neg => if neg then "-Infinity" else "Infinity"
  | JFin m e =>
      if m =? 0 then "0"
      else
        let '(ds, z) := strip_zeros (Z_digits (Z.abs m)) in
        let n := Z.of_nat (String.length ds) + Z.of_nat z + e in
        (if m <? 0 then "-" else "") ++ positive_toString ds n
  end.

(** [ToIntegerOrInfinity] of a finite value: truncation towards zero. *)
Definition truncate (m e : Z) : Z :=
  if 0 <=? e then m * 10 ^ e else Z.quot m (10 ^ (- e)).

End JsNumber.

(** ** JavaScript dates *)

Module JsDate.

Definition msPerDay : Z := 86400000.
Definition msPerMinute : Z := 60000.

(** The Gregorian calendar repeats every 400 years, an era of 146097
    days; inside an era the year runs from March. *)
Definition first_of_month (m : Z) : Z :=
  (153 * (if 2 <? m then m - 3 else m + 9) + 2) / 5.

Definition day_of_era (yoe m d : Z) : Z :=
  let doy := first_of_month m + d - 1 in
  yoe * 365 + yoe / 4 - yoe / 100 + doy.

Definition date_of_era (doe : Z) : Z * Z * Z :=
  let yoe := (doe - doe / 1460 + doe / 36524 - doe / 146096) / 365 in
  let doy := doe - (365 * yoe + yoe / 4 - yoe / 100) in
  let mp := (5 * doy + 2) / 153 in
  let d := doy - (153 * mp + 2) / 5 + 1 in
  let m := if mp <? 10 then mp + 3 else mp - 9 in
  (yoe, m, d).

(** Day number (days since 1970-01-01) of a proleptic Gregorian date,
    [m] in 1..12, and back. *)
Definition days_from_civil (y m d : Z) : Z :=
  let y' := if m <=? 2 then y - 1 else y in
  let era := y' / 400 in
  era * 146097 + day_of_era (y' - era * 400) m d - 719468.

Definition civil_from_days (z : Z) : Z * Z * Z :=
  let z' := z + 719468 in
  let era := z' / 146097 in
  let '(yoe, m, d) := date_of_era (z' - era * 146097) in
  ((if m <=? 2 then yoe + era * 400 + 1 else yoe + era * 400), m, d).

Definition is_leap (y : Z) : bool :=
  ((y mod 4 =? 0) && negb (y mod 100 =? 0)) || (y mod 400 =? 0).

Definition days_in_month (y m : Z) : Z :=
  if m =? 2 then (if is_leap y then 29 else 28)
  else if (m =? 4) || (m =? 6) || (m =? 9) || (m =? 11) then 30
  else 31.

(** [MakeDay(year, month, date)], [month] counted from 0 and carried into
    the year when out of 0..11. *)
Definition MakeDay (year month date : Z) : Z :=
  days_from_civil (year + month / 12) (month mod 12 + 1) 1 + date - 1.

(** [TimeClip]: a time value beyond 8.64e15 ms is an invalid date. *)
Definition TimeClip (t : Z) : option Z :=
  if Z.abs t <=? 8640000000000000 then Some t else None.

(** The local time that [new Date(year, month, day)] stands for: years
    0..99 mean 1900..1999, the time of day is midnight. *)
Definition local_midnight (year month day : Z) : Z :=
  let yr := if (0 <=? year) && (year <=? 99) then 1900 + year else year in
  MakeDay yr month day * msPerDay.

Definition pad (width : nat) (z : Z) : string :=
  let ds := JsNumber.Z_digits z in
  JsNumber.zeros (width - String.length ds) ++ ds.

(** [d.toISOString().split('T')[0]]: years outside 0..9999 are printed
    with a sign and six digits. *)
Definition isoDate (t : Z) : string :=
  let '(y, m, d) := civil_from_days (t / msPerDay) in
  (if (0 <=? y) && (y <=? 9999) then pad 4 y
   else (if y <? 0 then "-" else "+") ++ pad 6 (Z.abs y))
  ++ "-" ++ pad 2 m ++ "-" ++ pad 2 d.

(** A run of one or two digits followed by [-] or [/]. *)
Definition day_or_month (s : string) : option (string * string) :=
  let '(ds, r) := JsNumber.span_digits s in
  if (1 <=? String.length ds)%nat && (String.length ds <=? 2)%nat then
    match r with
    | String "-" r' => Some (ds, r')
    | String "/" r' => Some (ds, r')
    | _ => None
    end
  else None.

(** [/^\d{1,2}[-/]\d{1,2}[-/]\d{4}$/.test(val)] together with
    [val.split(/[-/]/).map(Number)]: the three numbers of a match. *)
Definition match_dmy (s : string) : option (Z * Z * Z) :=
  match day_or_month s with
  | Some (d, r1) =>
      match day_or_month r1 with
      | Some (m, r2) =>
          let '(y, r3) := JsNumber.span_digits r2 in
          if (String.length y =? 4)%nat && (r3 =? "")%string then
            Some (JsNumber.digits_value 0 d, JsNumber.digits_value 0 m,
                  JsNumber.digits_value 0 y)
          else None
      | None => None
      end
  | None => None
  end.

End JsDate.

(** ** The host *)

Record Host : Type := {
  (** [d.getTimezoneOffset()] for a date of the given time value: the
      minutes from its local time to UTC. *)
  timezoneOffset : Z -> Z;
  (** the time value of a local time, as the [Date] constructor takes it
      from its year, month and day. *)
  utcOfLocal : Z -> Z;
  (** the time value of [new Date()] during the call. *)
  now : Z;
  (** [new Date(s).getTime()] for a string; [None] is an invalid date. *)
  dateParse : string -> option Z;
  (** [String(d)] of a date with the given time value. *)
  dateToString : Z -> string;
  (** the [n]-th result of [uuidv4()] in the call. *)
  uuidv4 : nat -> string;
  (** [Math.floor(Math.random() * 12)] at its [n]-th use in the call. *)
  randomIndex : nat -> nat
}.

(** The host takes the local midnight [tl] for a time value that is a
    valid date and whose local day is the day of [tl]. *)
Definition host_keeps_day (host : Host) (tl : Z) : Prop :=
  let t := utcOfLocal host tl in
  Z.abs t <= 8640000000000000 /\
  (t - timezoneOffset host t * JsDate.msPerMinute) / JsDate.msPerDay
  = tl / JsDate.msPerDay.

(** ** Data model: [types.ts] and the cells of a sheet *)

Record Category : Type := {
  cat_id : string;
  cat_name : string;
  cat_color : string;
  cat_isCustom : bool
}.

(** A cell of the sheet: text, number, boolean or (with [cellDates]) a
    date, given by its time value. *)
Inductive cell : Type :=
| CStr (s : string)
| CNum (n : jsnum)
| CBool (b : bool)
| CDate (t : Z).

Record Expense : Type := {
  exp_id : string;
  exp_amount : jsnum;
  exp_description : string;
  exp_categoryId : string;
  exp_date : string;
  exp_notes : cell
}.

Record ImportResult : Type := {
  expenses : list Expense;
  newCategories : list Category
}.

(** [ParsedRow]: the keys in [Object.keys] order with their values. *)
Definition ParsedRow : Type := list (string * cell).

Section WithHost.

Variable host : Host.

(** The truth value of a cell; a date object is always truthy. *)
Definition cell_truthy (v : cell) : bool :=
  match v with
  | CStr s => JsString.truthy s
  | CNum n => JsNumber.truthy n
  | CBool b => b
  | CDate _ => true
  end.

(** [String(v)] *)
Definition cell_toString (v : cell) : string :=
  match v with
  | CStr s => s
  | CNum n => JsNumber.toString n
  | CBool b => if b then "true" else "false"
  | CDate t => dateToString host t
  end.

(** [Object.keys(row)] and [row[key]]. *)
Definition keys (row : ParsedRow) : list string := map fst row.

Fixpoint row_get (row : ParsedRow) (key : string) : option cell :=
  match row with
  | [] => None
  | (k, v) :: rest => if (k =? key)%string then Some v else row_get rest key
  end.

(** [getVal]: the value under the first alias that names a key of the
    row, keys compared in lower case; [None] is [null]. *)
Fixpoint getVal (row : ParsedRow) (keys_ : list string) : option cell :=
  match keys_ with
  | [] => None
  | key :: more =>
      match find (fun k => (toLowerCase k =? toLowerCase key)%string)
                 (keys row) with
      | Some foundKey =>
          if JsString.truthy foundKey then row_get row foundKey
          else getVal row more
      | None => getVal row more
      end
  end.

Definition today : string := JsDate.isoDate (now host).

(** [new Date(val)] for a value that is not a date object. *)
Definition generic_date (v : cell) : option Z :=
  match v with
  | CStr s => dateParse host s
  | CNum (JFin m e) => JsDate.TimeClip (JsNumber.truncate m e)
  | CNum _ => None
  | CBool b => Some (if b then 1 else 0)
  | CDate t => Some t
  end.

Definition generic_or_today (v : cell) : string :=
  match generic_date v with
  | Some t => JsDate.isoDate t
  | None => today
  end.

(** [parseDate] *)
Definition parseDate (val : option cell) : string :=
  match val with
  | None => today
  | Some v =>
      if negb (cell_truthy v) then today
      else
        match v with
        | CStr s =>
            match JsDate.match_dmy s with
            | Some (day, month, year) =>
                match JsDate.TimeClip
                        (utcOfLocal host
                           (JsDate.local_midnight year (month - 1) day)) with
                | Some d =>
                    let offset := timezoneOffset host d * JsDate.msPerMinute in
                    JsDate.isoDate (d - offset)
                | None => generic_or_today v
                end
            | None => generic_or_today v
            end
        | CDate t =>
            let offset := timezoneOffset host t * JsDate.msPerMinute in
            JsDate.isoDate (t - offset)
        | _ => generic_or_today v
        end
  end.

End WithHost.

(** ** The classification oracle and the resolver *)

(** A value found in the object returned by the oracle: a string, or
    anything else, of which only the truth value matters. *)
Inductive mapped : Type :=
| MStr (s : string)
| MOther (truth : bool).

(** The properties of the value [aiMapping], its own or inherited below
    [Object.prototype].  The answer [null], which has no properties to
    read, is [answer_null] of [OracleAnswer], further down. *)
Definition AiMapping : Type := string -> option mapped.

Definition no_mapping : AiMapping := fun _ => None.

(** What [Object.prototype] answers for keys the object does not own. *)
Definition object_prototype_keys : list string :=
  ["constructor"; "__defineGetter__"; "__defineSetter__"; "hasOwnProperty";
   "__lookupGetter__"; "__lookupSetter__"; "isPrototypeOf";
   "propertyIsEnumerable"; "toString"; "valueOf"; "__proto__";
   "toLocaleString"].

(** [aiMapping[key]]; [None] is [undefined]. *)
Definition prop (m : AiMapping) (key : string) : option mapped :=
  match m key with
  | Some v => Some v
  | None => if mem key object_prototype_keys then Some (MOther true) else None
  end.

Definition mapped_truthy (v : option mapped) : bool :=
  match v with
  | Some (MStr s) => JsString.truthy s
  | Some (MOther b) => b
  | None => false
  end.

(** [a || b] *)
Definition or_else (a b : option mapped) : option mapped :=
  if mapped_truthy a then a else b.

(** [mappedId !== "NEW"] *)
Definition is_NEW (v : option mapped) : bool :=
  match v with
  | Some (MStr s) => (s =? "NEW")%string
  | _ => false
  end.

(** [existingCategories.find(c => c.id === mappedId)] *)
Definition find_by_mapped (existing : list Category) (v : option mapped)
  : option Category :=
  match v with
  | Some (MStr s) => find (fun c => (cat_id c =? s)%string) existing
  | _ => None
  end.

Definition find_by_id (existing : list Category) (id : string)
  : option Category :=
  find (fun c => (cat_id c =? id)%string) existing.

(** [generateRandomColor]'s palette. *)
Definition colors : list string :=
  ["#EF4444"; "#F97316"; "#F59E0B"; "#84CC16"; "#10B981";
   "#06B6D4"; "#3B82F6"; "#6366F1"; "#8B5CF6"; "#D946EF";
   "#F43F5E"; "#64748B"].

(** What one import call mutates besides the list of expenses: the map
    [newCategoriesCreatedMap] in insertion order, and how often [uuidv4]
    and [Math.random] were called. *)
Record Session : Type := {
  newCategoriesCreatedMap : list (string * Category);
  uuidCount : nat;
  randomCount : nat
}.

Definition new_session : Session :=
  {| newCategoriesCreatedMap := []; uuidCount := 0; randomCount := 0 |}.

(** The session after a call of [uuidv4] outside the resolver. *)
Definition take_uuid (st : Session) : Session :=
  {| newCategoriesCreatedMap := newCategoriesCreatedMap st;
     uuidCount := S (uuidCount st);
     randomCount := randomCount st |}.

Module JsMap.

Fixpoint get (m : list (string * Category)) (k : string) : option Category :=
  match m with
  | [] => None
  | (k', v) :: rest => if (k' =? k)%string then Some v else get rest k
  end.

(** [Map.prototype.set]: an existing key keeps its place. *)
Fixpoint set (m : list (string * Category)) (k : string) (v : Category)
  : list (string * Category) :=
  match m with
  | [] => [(k, v)]
  | (k', v') :: rest =>
      if (k' =? k)%string then (k, v) :: rest else (k', v') :: set rest k v
  end.

(** [Array.from(m.values())] *)
Definition values (m : list (string * Category)) : list Category :=
  map snd m.

End JsMap.

(** The object [resolveCategory] returns. *)
Record Resolved : Type := {
  res_id : string;
  res_originalName : option string;
  res_isNew : bool
}.

Section Pipeline.

Variable host : Host.
Variable existingCategories : list Category.

Definition generateRandomColor (n : nat) : string :=
  nth (randomIndex host n mod 12)%nat colors "".

Section Resolver.

Variable aiMapping : AiMapping.

(** The value of [aiMapping[cleanRaw] || aiMapping[lowerRaw] ||
    aiMapping[rawInput]]. *)
Definition mappedId_of (rawInput : string) : option mapped :=
  let cleanRaw := trim rawInput in
  let lowerRaw := toLowerCase cleanRaw in
  or_else (prop aiMapping cleanRaw)
          (or_else (prop aiMapping lowerRaw) (prop aiMapping rawInput)).

(** Case 1A: the id the oracle gave, when it is the id of an existing
    category. *)
Definition ai_choice (rawInput : string) : option string :=
  let mappedId := mappedId_of rawInput in
  if mapped_truthy mappedId && negb (is_NEW mappedId) then
    match find_by_mapped existingCategories mappedId with
    | Some _ =>
        match mappedId with
        | Some (MStr s) => Some s
        | _ => None
        end
    | None => None
    end
  else None.

(** [resolveCategory].  [newCategoriesCreatedMap.has(lowerRaw)] and the
    [get] that follows it are the one lookup in the session map. *)
Definition resolveCategory (rawInput : string) (st : Session)
  : Resolved * Session :=
  let cleanRaw := trim rawInput in
  let lowerRaw := toLowerCase cleanRaw in
  match ai_choice rawInput with
  | Some id =>
      ({| res_id := id; res_originalName := Some cleanRaw;
          res_isNew := false |}, st)
  | None =>
      match JsMap.get (newCategoriesCreatedMap st) lowerRaw with
      | Some c =>
          ({| res_id := cat_id c; res_originalName := None;
              res_isNew := true |}, st)
      | None =>
          match find (fun c => (toLowerCase (cat_name c) =? lowerRaw)%string)
                     existingCategories with
          | Some strictMatch =>
              ({| res_id := cat_id strictMatch; res_originalName := None;
                  res_isNew := false |}, st)
          | None =>
              let title := toTitleCase cleanRaw in
              let newCat :=
                {| cat_id := uuidv4 host (uuidCount st);
                   cat_name := if JsString.truthy title then title
                               else "Imported Misc";
                   cat_color := generateRandomColor (randomCount st);
                   cat_isCustom := true |} in
              ({| res_id := cat_id newCat; res_originalName := None;
                  res_isNew := true |},
               {| newCategoriesCreatedMap :=
                    JsMap.set (newCategoriesCreatedMap st) lowerRaw newCat;
                  uuidCount := S (uuidCount st);
                  randomCount := S (randomCount st) |})
          end
      end
  end.

(** [!result.isNew && result.originalName] *)
Definition mapped_to_existing (result : Resolved) : bool :=
  negb (res_isNew result) &&
  match res_originalName result with
  | Some n => JsString.truthy n
  | None => false
  end.

(** [existingCategories.find(c => c.id === id)?.name], when truthy. *)
Definition mapped_name (id : string) : option string :=
  match find_by_id existingCategories id with
  | Some c => if JsString.truthy (cat_name c) then Some (cat_name c) else None
  | None => None
  end.

(** A new expense takes the next [uuidv4()]. *)
Definition push (st : Session) (acc : list Expense)
    (amount : jsnum) (desc categoryId date : string) (notes : cell)
  : Session * list Expense :=
  (take_uuid st,
   (acc ++ [{| exp_id := uuidv4 host (uuidCount st); exp_amount := amount;
               exp_description := desc; exp_categoryId := categoryId;
               exp_date := date; exp_notes := notes |}])%list).

(** *** Matrix mode *)

(** The amount of a matrix cell: commas are removed from strings only. *)
Definition matrix_amount (val : option cell) : jsnum :=
  match val with
  | Some (CStr s) => JsNumber.parseFloat (remove_commas s)
  | Some v => JsNumber.parseFloat (cell_toString host v)
  | None => JsNumber.parseFloat "undefined"
  end.

Definition matrix_description (rawCatHeader : string) (result : Resolved)
  : string :=
  let desc := toTitleCase rawCatHeader ++ " Expense" in
  if mapped_to_existing result then
    match mapped_name (res_id result) with
    | Some mappedCatName =>
        if negb (toLowerCase mappedCatName =? toLowerCase rawCatHeader)%string
        then mappedCatName ++ " Expense (" ++ rawCatHeader ++ ")"
        else desc
    | None => desc
    end
  else desc.

Definition matrix_cell (row : ParsedRow) (dateStr : string)
    (run : Session * list Expense) (rawCatHeader : string)
  : Session * list Expense :=
  let '(st, acc) := run in
  let amount := matrix_amount (row_get row rawCatHeader) in
  if negb (JsNumber.isNaN amount) && JsNumber.is_positive amount then
    let '(result, st1) := resolveCategory rawCatHeader st in
    push st1 acc amount (matrix_description rawCatHeader result)
         (res_id result) dateStr (CStr "Imported via Matrix")
  else run.

Definition matrix_row (dateKey : string) (uniqueRawCategories : list string)
    (run : Session * list Expense) (row : ParsedRow)
  : Session * list Expense :=
  let dateVal := row_get row dateKey in
  match dateVal with
  | Some v =>
      if negb (cell_truthy v) then run
      else
        let strDateVal := toLowerCase (cell_toString host v) in
        if includes strDateVal "total" || includes strDateVal "final" then run
        else
          let dateStr := parseDate host dateVal in
          fold_left (matrix_cell row dateStr) uniqueRawCategories run
  | None => run
  end.

(** *** List mode *)

Definition description_aliases : list string :=
  ["description"; "desc"; "details"; "particulars"; "narration"].
Definition amount_aliases : list string :=
  ["amount"; "amt"; "cost"; "price"; "debit"; "spending"; "value"].
Definition date_aliases : list string := ["date"; "dt"; "time"; "when"].
Definition category_aliases : list string :=
  ["category"; "cat"; "type"; "expense type"].
Definition notes_aliases : list string := ["notes"; "remarks"; "comment"].

(** The value tested by [if (v)], when the test succeeds. *)
Definition if_truthy (v : option cell) : option cell :=
  match v with
  | Some c => if cell_truthy c then Some c else None
  | None => None
  end.

(** [getVal(row, aliases) || fallback] *)
Definition getVal_or (row : ParsedRow) (aliases : list string)
    (fallback : string) : cell :=
  match getVal row aliases with
  | Some v => if cell_truthy v then v else CStr fallback
  | None => CStr fallback
  end.

(** The amount of a list row, or [None] when the row is left out. *)
Definition list_amount (row : ParsedRow) : option jsnum :=
  match getVal row amount_aliases with
  | None => None
  | Some (CStr "") => None
  | Some amountStr =>
      let amount := JsNumber.parseFloat (cell_toString host amountStr) in
      if JsNumber.isNaN amount then None
      else
        let amount := JsNumber.abs amount in
        if JsNumber.is_zero amount then None else Some amount
  end.

(** The description of a list row after a category was resolved from
    [rawInputForCategory]. *)
Definition list_description (isImplicitCategory : bool) (description : cell)
    (rawInputForCategory : cell) (result : Resolved) : string :=
  let plain := cell_toString host description in
  if negb isImplicitCategory && mapped_to_existing result then
    match mapped_name (res_id result) with
    | Some _ =>
        if negb (includes (toLowerCase (cell_toString host description))
                   (toLowerCase (cell_toString host rawInputForCategory)))
        then plain ++ " (" ++ cell_toString host rawInputForCategory ++ ")"
        else plain
    | None => plain
    end
  else plain.

Definition list_row (usesExplicitCategory : bool)
    (run : Session * list Expense) (row : ParsedRow)
  : Session * list Expense :=
  let '(st, acc) := run in
  let description := getVal_or row description_aliases "Imported Expense" in
  match list_amount row with
  | None => run
  | Some amount =>
      let dateStr := parseDate host (getVal row date_aliases) in
      let isImplicitCategory := negb usesExplicitCategory in
      let rawInputForCategory :=
        if usesExplicitCategory then getVal row category_aliases
        else Some description in
      let notes := getVal_or row notes_aliases "" in
      match if_truthy rawInputForCategory with
      | Some raw =>
          let '(result, st1) := resolveCategory (cell_toString host raw) st in
          push st1 acc amount
               (list_description isImplicitCategory description raw result)
               (res_id result) dateStr notes
      | None =>
          match find (fun c => (cat_name c =? "Others")%string)
                     existingCategories with
          | Some others =>
              push st acc amount (cell_toString host description)
                   (cat_id others) dateStr notes
          | None =>
              let '(result, st1) := resolveCategory "Others" st in
              push st1 acc amount (cell_toString host description)
                   (res_id result) dateStr notes
          end
      end
  end.

End Resolver.

(** *** Headers, mode and the source of the category tokens *)

Inductive SourceType : Type :=
| explicit_category
| description
| matrix.

(** [/^(amount|amt|price|cost|debit|spending|value)$/i.test(h)] *)
Definition is_amount_header (h : string) : bool :=
  mem (toLowerCase h)
      ["amount"; "amt"; "price"; "cost"; "debit"; "spending"; "value"].

(** [/^(date|dt|when|day)$/i.test(h)] *)
Definition is_date_header (h : string) : bool :=
  mem (toLowerCase h) ["date"; "dt"; "when"; "day"].

Definition isMatrixMode (headers : list string) : bool :=
  match find is_date_header headers, find is_amount_header headers with
  | Some _, None => (2 <? List.length headers)%nat
  | _, _ => false
  end.

Definition genericTerms : list string :=
  ["debit"; "credit"; "dr"; "cr"; "withdrawal"; "deposit"; "transfer";
   "upi"; "pos"; "atm"; "card"; "imps"; "neft"; "rtgs"; "mbk"; "mobile";
   "net"; "banking"; "txn"; "transaction"; "expense"; "payment"].

(** The set filled by [rawData.forEach(row => { const val = getVal(row,
    aliases); if (val) rawCategoriesSet.add(String(val).trim()); })]. *)
Definition column_values (aliases : list string) (rawData : list ParsedRow)
  : list string :=
  fold_left
    (fun set row =>
       match if_truthy (getVal row aliases) with
       | Some val => set_add (trim (cell_toString host val)) set
       | None => set
       end)
    rawData [].

(** The quality test of the category column.  [genericCount / totalItems >
    0.5] is compared on integers, [totalItems] being positive there. *)
Definition shouldUseDescription (rawData : list ParsedRow) : bool :=
  let rawCategoriesSet := column_values category_aliases rawData in
  if (List.length rawCategoriesSet =? 0)%nat then true
  else
    let uniqueItems := rawCategoriesSet in
    let totalItems := List.length uniqueItems in
    let genericCount :=
      List.length (filter (fun i => mem (toLowerCase i) genericTerms)
                     uniqueItems) in
    (totalItems <? 2 * genericCount)%nat ||
    ((totalItems <? 3)%nat && (5 <? List.length rawData)%nat).

Definition ignoredHeaders (dateKey : string) : list string :=
  ["total"; "final"; "subtotal"; "sum"; "notes"; "comments"; "description";
   toLowerCase dateKey].

Definition matrix_headers (dateKey : string) (headers : list string)
  : list string :=
  fold_left
    (fun set h =>
       let lowerH := trim (toLowerCase h) in
       if JsString.truthy lowerH && negb (mem lowerH (ignoredHeaders dateKey))
          && negb (includes lowerH "total")
       then set_add (trim h) set else set)
    headers [].

(** Step 2 of [parseFile]: which source is used and the set of raw
    tokens it gives. *)
Definition category_source (headers : list string) (rawData : list ParsedRow)
  : SourceType * list string :=
  if isMatrixMode headers then
    match find is_date_header headers with
    | Some dateKey => (matrix, matrix_headers dateKey headers)
    | None => (matrix, [])
    end
  else if shouldUseDescription rawData then
    (description, column_values description_aliases rawData)
  else (explicit_category, column_values category_aliases rawData).

Definition uniqueRawCategories_of (rawCategoriesSet : list string)
  : list string :=
  filter (fun s => JsString.truthy s && (1 <? String.length s)%nat)
         rawCategoriesSet.

(** *** The pipeline *)

(** [GeminiService.mapImportCategories], awaited inside [try]: [None] is
    a rejected promise.  The answer is a value with properties here;
    [Promise.parseFile] is the import with the answer [null] as well. *)
Variable mapImportCategories :
  list string -> list Category -> option AiMapping.

Definition ai_step (uniqueRawCategories : list string) : AiMapping :=
  if (0 <? List.length uniqueRawCategories)%nat then
    match mapImportCategories (firstn 1000 uniqueRawCategories)
                              existingCategories with
    | Some m => m
    | None => no_mapping
    end
  else no_mapping.

(** Step 4 of [parseFile], from a given mapping. *)
Definition process_rows (aiMapping : AiMapping) (usedSourceType : SourceType)
    (headers uniqueRawCategories : list string) (rawData : list ParsedRow)
  : Session * list Expense :=
  match usedSourceType with
  | matrix =>
      match find is_date_header headers with
      | Some dateKey =>
          fold_left (matrix_row aiMapping dateKey uniqueRawCategories)
                    rawData (new_session, [])
      | None => (new_session, [])
      end
  | explicit_category =>
      fold_left (list_row aiMapping true) rawData (new_session, [])
  | description =>
      fold_left (list_row aiMapping false) rawData (new_session, [])
  end.

(** [ExcelService.parseFile], from the rows the sheet was read into. *)
Definition parseFile (rawData : list ParsedRow) : ImportResult :=
  match rawData with
  | [] => {| expenses := []; newCategories := [] |}
  | first :: _ =>
      let headers := keys first in
      let '(usedSourceType, rawCategoriesSet) :=
        category_source headers rawData in
      let uniqueRawCategories := uniqueRawCategories_of rawCategoriesSet in
      let aiMapping := ai_step uniqueRawCategories in
      let '(st, newExpenses) :=
        process_rows aiMapping usedSourceType headers uniqueRawCategories
                     rawData in
      {| expenses := newExpenses;
         newCategories := JsMap.values (newCategoriesCreatedMap st) |}
  end.

End Pipeline.

(** ** Sessions along one import call *)

Section Steps.

Variable host : Host.
Variable existingCategories : list Category.
Variable aiMapping : AiMapping.

(** What happens to the session between two points of a call: tokens are
    resolved and expenses take identifiers. *)
Inductive session_step : Session -> Session -> Prop :=
| step_resolve (rawInput : string) (st : Session) :
    session_step st
      (snd (resolveCategory host existingCategories aiMapping rawInput st))
| step_push (st : Session) :
    session_step st (take_uuid st).

Inductive later : Session -> Session -> Prop :=
| later_refl (st : Session) : later st st
| later_step (st1 st2 st3 : Session) :
    session_step st1 st2 -> later st2 st3 -> later st1 st3.

End Steps.

(** An identifier is known when it is the [id] of a category the caller
    gave or of one in [news]. *)
Definition known (existing news : list Category) (id : string) : Prop :=
  (exists c, In c existing /\ cat_id c = id) \/
  (exists c, In c news /\ cat_id c = id).

(** [existingCategories.find(c => c.name.toLowerCase() === lowerRaw)] *)
Definition strict_match (existing : list Category) (lowerRaw : string)
  : option Category :=
  find (fun c => (toLowerCase (cat_name c) =? lowerRaw)%string) existing.

(** Every expense of a run refers to a known category. *)
Definition run_ok (existing : list Category) (run : Session * list Expense)
  : Prop :=
  Forall (fun e =>
            known existing (JsMap.values (newCategoriesCreatedMap (fst run)))
                  (exp_categoryId e))
         (snd run).

(** ** The specification's wording, where it is compared with the code *)

(** The first truthy value of a chain [a || b || c]; the last one when
    none is truthy. *)
Fixpoint first_truthy (l : list (option mapped)) : option mapped :=
  match l with
  | [] => None
  | [v] => v
  | v :: more => if mapped_truthy v then v else first_truthy more
  end.

(** The oracle's answer for a token looked up as given, then trimmed, then
    lower-cased. *)
Definition spec_mappedId_of (m : AiMapping) (rawToken : string)
  : option mapped :=
  first_truthy [prop m rawToken; prop m (trim rawToken);
                prop m (toLowerCase (trim rawToken))].

(** The value under the first alias whose header is populated in the
    row. *)
Fixpoint spec_first_populated (row : ParsedRow) (aliases : list string)
  : option cell :=
  match aliases with
  | [] => None
  | a :: more =>
      match find (fun kv => (toLowerCase (fst kv) =? toLowerCase a)%string
                            && cell_truthy (snd kv)) row with
      | Some (_, v) => Some v
      | None => spec_first_populated row more
      end
  end.

Section SpecWording.

Variable host : Host.

(** The distinct non-empty trimmed values of the category column. *)
Definition spec_distinct_values (rawData : list ParsedRow) : list string :=
  fold_left
    (fun set row =>
       match getVal row category_aliases with
       | Some v =>
           let s := trim (cell_toString host v) in
           if JsString.truthy s then set_add s set else set
       | None => set
       end)
    rawData [].

Definition spec_category_column_exists (rawData : list ParsedRow) : bool :=
  existsb (fun row => match getVal row category_aliases with
                      | Some _ => true
                      | None => false
                      end) rawData.

(** No category column, or generic-term ratio above 0.5, or fewer than 3
    distinct values while more than 5 rows exist. *)
Definition spec_rejects_category_column (rawData : list ParsedRow) : bool :=
  let values := spec_distinct_values rawData in
  let total := List.length values in
  let generic :=
    List.length (filter (fun i => mem (toLowerCase i) genericTerms) values) in
  negb (spec_category_column_exists rawData)
  || (total <? 2 * generic)%nat
  || ((total <? 3)%nat && (5 <? List.length rawData)%nat).

(** The explicit column is the source, the category is pre-existing and
    not new, its name differs from the token and the description does not
    contain the token. *)
Definition spec_appends_token (existing : list Category)
    (usesExplicitCategory : bool) (descriptionText rawToken : string)
    (result : Resolved) : bool :=
  usesExplicitCategory && negb (res_isNew result)
  && match find_by_id existing (res_id result) with
     | Some c =>
         negb (toLowerCase (cat_name c) =? toLowerCase rawToken)%string
     | None => false
     end
  && negb (includes (toLowerCase descriptionText) (toLowerCase rawToken)).

End SpecWording.

(** ** A host and sheets for the examples *)

Module Sample.

(** [YYYY-MM-DD] read as a UTC date. *)
Definition parse_iso_date (s : string) : option Z :=
  let '(y, r1) := JsNumber.span_digits s in
  match r1 with
  | String "-" r1' =>
      let '(m, r2) := JsNumber.span_digits r1' in
      match r2 with
      | String "-" r2' =>
          let '(d, r3) := JsNumber.span_digits r2' in
          if (String.length y =? 4)%nat && (String.length m =? 2)%nat
             && (String.length d =? 2)%nat && (r3 =? "")%string
          then Some (JsDate.days_from_civil (JsNumber.digits_value 0 y)
                       (JsNumber.digits_value 0 m) (JsNumber.digits_value 0 d)
                     * JsDate.msPerDay)
          else None
      | _ => None
      end
  | _ => None
  end.

(** A host five and a half hours east of UTC, on 5 March 2024 at 07:00
    UTC. *)
Definition host : Host := {|
  timezoneOffset := fun _ => -330;
  utcOfLocal := fun t => t + -330 * JsDate.msPerMinute;
  now := 1709622000000;
  dateParse := parse_iso_date;
  dateToString :=
    fun _ => "Tue Mar 05 2024 00:00:00 GMT+0530 (India Standard Time)";
  uuidv4 := fun n => "uuid-" ++ JsNumber.nat_digits n;
  randomIndex := fun n => n
|}.

Definition category (id name : string) : Category :=
  {| cat_id := id; cat_name := name; cat_color := "#3B82F6";
     cat_isCustom := false |}.

Definition categories : list Category :=
  [category "c1" "Food"; category "c2" "Dining"; category "c3" "Others"].

Definition mapping_of (entries : list (string * string)) : AiMapping :=
  fun key =>
    match find (fun kv => (fst kv =? key)%string) entries with
    | Some (_, v) => Some (MStr v)
    | None => None
    end.

Definition oracle_of (entries : list (string * string))
  : list string -> list Category -> option AiMapping :=
  fun _ _ => Some (mapping_of entries).

Definition failing_oracle : list string -> list Category -> option AiMapping :=
  fun _ _ => None.

(** Two rows whose category cells differ in case only. *)
Definition case_sheet : list ParsedRow :=
  [ [("Date", CStr "2024-03-05"); ("Description", CStr "Lunch");
     ("Category", CStr "Meals"); ("Amount", CNum (JFin 120 0))];
    [("Date", CStr "2024-03-06"); ("Description", CStr "Dinner");
     ("Category", CStr "MEALS"); ("Amount", CNum (JFin 340 0))] ].

(** A category column that is there and blank. *)
Definition blank_category_sheet : list ParsedRow :=
  [ [("Date", CStr "2024-03-05"); ("Description", CStr "tea");
     ("Category", CStr ""); ("Amount", CNum (JFin 10 0))] ].

(** Ten rows whose category column says Debit or Credit. *)
Definition bank_row (n : nat) : ParsedRow :=
  [("Date", CStr "2024-03-05");
   ("Description", CStr ("payee " ++ JsNumber.nat_digits n));
   ("Category", CStr (if Nat.even n then "Debit" else "Credit"));
   ("Amount", CNum (JFin (Z.of_nat (100 + n)) 0))].

Definition bank_sheet : list ParsedRow := map bank_row (seq 0 10).

(** A row whose first amount and description headers are blank and whose
    later ones are filled. *)
Definition alias_row : ParsedRow :=
  [("Date", CStr "2024-03-05"); ("Description", CStr "");
   ("Details", CStr "Taxi"); ("Amount", CStr "");
   ("Debit", CNum (JFin 500 0))].

Definition pizza_sheet : list ParsedRow :=
  [ [("Date", CStr "2024-03-05"); ("Description", CStr "Pizza");
     ("Category", CStr "Food"); ("Amount", CNum (JFin 250 0))] ].


Definition matrix_sheet : list ParsedRow :=
  [ [("Date", CDate 1709577000000); ("Food", CStr "1,200");
     ("Rent", CNum (JFin 5 3)); ("Total", CNum (JFin 62 2))] ].

End Sample.

(** ** The import as a promise *)

(** What the promise of [mapImportCategories] resolves to is the value of
    [JSON.parse]: [null] for the text [null], of which no property can be
    read, or a value that has properties.  Every such value, an object, an
    array, a string, a number or a boolean, inherits from
    [Object.prototype]; [AiMapping] holds what it has of its own or
    inherits below it. *)
Inductive OracleAnswer : Type :=
| answer_null
| answer_value (m : AiMapping).

(** An oracle that never answers [null]. *)
Definition with_properties
    (oracle : list string -> list Category -> option AiMapping)
  : list string -> list Category -> option OracleAnswer :=
  fun batch categories =>
    match oracle batch categories with
    | Some m => Some (answer_value m)
    | None => None
    end.

(** [parseFile] with every answer of the oracle.  The promise it returns
    is resolved with a result or, [None], rejected: what is thrown inside
    [reader.onload] is caught at line 269 and handed to [reject].  A run
    over the rows is [None] once something was thrown. *)
Module Promise.

Section WithAnswer.

Variable host : Host.
Variable existingCategories : list Category.

Section Rows.

Variable aiMapping : OracleAnswer.

(** [resolveCategory]: reading [aiMapping[cleanRaw]] at line 128 throws a
    [TypeError] when [aiMapping] is [null]. *)
Definition resolveCategory (rawInput : string) (st : Session)
  : option (Resolved * Session) :=
  match aiMapping with
  | answer_null => None
  | answer_value m =>
      Some (resolveCategory host existingCategories m rawInput st)
  end.

Definition matrix_cell (row : ParsedRow) (dateStr : string)
    (run : option (Session * list Expense)) (rawCatHeader : string)
  : option (Session * list Expense) :=
  match run with
  | None => None
  | Some (st, acc) =>
      let amount := matrix_amount host (row_get row rawCatHeader) in
      if negb (JsNumber.isNaN amount) && JsNumber.is_positive amount then
        match resolveCategory rawCatHeader st with
        | Some (result, st1) =>
            Some (push host st1 acc amount
                       (matrix_description existingCategories rawCatHeader
                                           result)
                       (res_id result) dateStr (CStr "Imported via Matrix"))
        | None => None
        end
      else run
  end.

Definition matrix_row (dateKey : string) (uniqueRawCategories : list string)
    (run : option (Session * list Expense)) (row : ParsedRow)
  : option (Session * list Expense) :=
  match run with
  | None => None
  | Some _ =>
      let dateVal := row_get row dateKey in
      match dateVal with
      | Some v =>
          if negb (cell_truthy v) then run
          else
            let strDateVal := toLowerCase (cell_toString host v) in
            if includes strDateVal "total" || includes strDateVal "final"
            then run
            else
              let dateStr := parseDate host dateVal in
              fold_left (matrix_cell row dateStr) uniqueRawCategories run
      | None => run
      end
  end.

Definition list_row (usesExplicitCategory : bool)
    (run : option (Session * list Expense)) (row : ParsedRow)
  : option (Session * list Expense) :=
  match run with
  | None => None
  | Some (st, acc) =>
      let description :=
        getVal_or row description_aliases "Imported Expense" in
      match list_amount host row with
      | None => run
      | Some amount =>
          let dateStr := parseDate host (getVal row date_aliases) in
          let isImplicitCategory := negb usesExplicitCategory in
          let rawInputForCategory :=
            if usesExplicitCategory then getVal row category_aliases
            else Some description in
          let notes := getVal_or row notes_aliases "" in
          match if_truthy rawInputForCategory with
          | Some raw =>
              match resolveCategory (cell_toString host raw) st with
              | Some (result, st1) =>
                  Some (push host st1 acc amount
                             (list_description host existingCategories
                                isImplicitCategory description raw result)
                             (res_id result) dateStr notes)
              | None => None
              end
          | None =>
              match find (fun c => (cat_name c =? "Others")%string)
                         existingCategories with
              | Some others =>
                  Some (push host st acc amount
                             (cell_toString host description)
                             (cat_id others) dateStr notes)
              | None =>
                  match resolveCategory "Others" st with
                  | Some (result, st1) =>
                      Some (push host st1 acc amount
                                 (cell_toString host description)
                                 (res_id result) dateStr notes)
                  | None => None
                  end
              end
          end
      end
  end.

(** Step 4 of [parseFile]. *)
Definition process_rows (usedSourceType : SourceType)
    (headers uniqueRawCategories : list string) (rawData : list ParsedRow)
  : option (Session * list Expense) :=
  match usedSourceType with
  | matrix =>
      match find is_date_header headers with
      | Some dateKey =>
          fold_left (matrix_row dateKey uniqueRawCategories) rawData
                    (Some (new_session, []))
      | None => Some (new_session, [])
      end
  | explicit_category =>
      fold_left (list_row true) rawData (Some (new_session, []))
  | description =>
      fold_left (list_row false) rawData (Some (new_session, []))
  end.

End Rows.

(** [GeminiService.mapImportCategories], awaited inside [try]: [None] is
    a rejected promise, after which [aiMapping] is still [{}]. *)
Variable mapImportCategories :
  list string -> list Category -> option OracleAnswer.

Definition ai_step (uniqueRawCategories : list string) : OracleAnswer :=
  if (0 <? List.length uniqueRawCategories)%nat then
    match mapImportCategories (firstn 1000 uniqueRawCategories)
                              existingCategories with
    | Some answer => answer
    | None => answer_value no_mapping
    end
  else answer_value no_mapping.

Definition parseFile (rawData : list ParsedRow) : option ImportResult :=
  match rawData with
  | [] => Some {| expenses := []; newCategories := [] |}
  | first :: _ =>
      let headers := keys first in
      let '(usedSourceType, rawCategoriesSet) :=
        category_source host headers rawData in
      let uniqueRawCategories := uniqueRawCategories_of rawCategoriesSet in
      let aiMapping := ai_step uniqueRawCategories in
      match process_rows aiMapping usedSourceType headers
                         uniqueRawCategories rawData with
      | Some (st, newExpenses) =>
          Some {| expenses := newExpenses;
                  newCategories :=
                    JsMap.values (newCategoriesCreatedMap st) |}
      | None => None
      end
  end.

End WithAnswer.

End Promise.

(** ** The callers of the import: [UploadModal] and [App] *)

Module App.

(** What [App] holds in its state and saves after every change. *)
Record State : Type := {
  st_expenses : list Expense;
  st_categories : list Category
}.

(** [addExpenses], which the import reaches through [onImport]. *)
Definition addExpenses (newExpenses : list Expense)
    (newCategories : list Category) (s : State) : State :=
  {| st_expenses := (newExpenses ++ st_expenses s)%list;
     st_categories := (st_categories s ++ newCategories)%list |}.

(** [{ ...e, categoryId: id }] *)
Definition with_categoryId (e : Expense) (id : string) : Expense :=
  {| exp_id := exp_id e; exp_amount := exp_amount e;
     exp_description := exp_description e; exp_categoryId := id;
     exp_date := exp_date e; exp_notes := exp_notes e |}.

(** [categories.find(c => c.name === 'Others')?.id || 'others'] *)
Definition otherCatId (categories : list Category) : string :=
  match find (fun c => (cat_name c =? "Others")%string) categories with
  | Some c => if JsString.truthy (cat_id c) then cat_id c else "others"
  | None => "others"
  end.

(** [deleteCategory] *)
Definition deleteCategory (id : string) (s : State) : State :=
  let otherCatId := otherCatId (st_categories s) in
  {| st_expenses :=
       map (fun e => if (exp_categoryId e =? id)%string
                     then with_categoryId e otherCatId else e)
           (st_expenses s);
     st_categories :=
       filter (fun c => negb (cat_id c =? id)%string) (st_categories s) |}.

(** Every expense refers to a category of the state. *)
Definition references_ok (s : State) : Prop :=
  Forall (fun e => find_by_id (st_categories s) (exp_categoryId e) <> None)
         (st_expenses s).

End App.

Module UploadModal.

(** [getCategoryName] of the preview. *)
Definition getCategoryName (categories newCategories : list Category)
    (id : string) : string :=
  match find_by_id categories id with
  | Some cat => cat_name cat
  | None =>
      match find_by_id newCategories id with
      | Some cat => cat_name cat
      | None => "Unknown"
      end
  end.

End UploadModal.

(** ** What the rows of a sheet ask of the resolver *)

Section RowTokens.

Variable host : Host.
Variable existingCategories : list Category.

(** The amount, date and notes of the expense a list row gives. *)
Definition list_row_fields (row : ParsedRow)
  : list (jsnum * string * cell) :=
  match list_amount host row with
  | Some amount =>
      [(amount, parseDate host (getVal row date_aliases),
        getVal_or row notes_aliases "")]
  | None => []
  end.

(** The token a list row has resolved, if any. *)
Definition list_row_tokens (usesExplicitCategory : bool) (row : ParsedRow)
  : list string :=
  match list_amount host row with
  | None => []
  | Some _ =>
      match if_truthy
              (if usesExplicitCategory then getVal row category_aliases
               else Some (getVal_or row description_aliases
                                    "Imported Expense")) with
      | Some raw => [cell_toString host raw]
      | None =>
          match find (fun c => (cat_name c =? "Others")%string)
                     existingCategories with
          | Some _ => []
          | None => ["Others"]
          end
      end
  end.

(** The headers a matrix row has resolved. *)
Definition matrix_row_tokens (dateKey : string)
    (uniqueRawCategories : list string) (row : ParsedRow) : list string :=
  match row_get row dateKey with
  | Some v =>
      if negb (cell_truthy v) then []
      else
        let strDateVal := toLowerCase (cell_toString host v) in
        if includes strDateVal "total" || includes strDateVal "final" then []
        else
          filter (fun h =>
                    let amount := matrix_amount host (row_get row h) in
                    negb (JsNumber.isNaN amount)
                    && JsNumber.is_positive amount)
                 uniqueRawCategories
  | None => []
  end.

(** The tokens resolved while the rows of a sheet are processed. *)
Definition sheet_tokens (usedSourceType : SourceType)
    (headers uniqueRawCategories : list string) (rawData : list ParsedRow)
  : list string :=
  match usedSourceType with
  | matrix =>
      match find is_date_header headers with
      | Some dateKey =>
          flat_map (matrix_row_tokens dateKey uniqueRawCategories) rawData
      | None => []
      end
  | explicit_category => flat_map (list_row_tokens true) rawData
  | description => flat_map (list_row_tokens false) rawData
  end.

End RowTokens.

(** The key of a token in the session map. *)
Definition token_key (rawInput : string) : string :=
  toLowerCase (trim rawInput).

(** What holds of every entry of the session map: no existing category has
    the key for its name in lower case; the category is custom, with a
    colour of the palette, and named after the key, or [Imported Misc] for
    the empty key. *)
Definition entry_ok (existing : list Category) (entry : string * Category)
  : Prop :=
  let '(key, c) := entry in
  strict_match existing key = None /\
  cat_isCustom c = true /\
  In (cat_color c) colors /\
  ((key <> "" /\ toLowerCase (cat_name c) = key) \/
   (key = "" /\ cat_name c = "Imported Misc")).

(** The name given to a category made for a blank token. *)
Definition is_placeholder (c : Category) : bool :=
  (cat_name c =? "Imported Misc")%string.

(** The tokens [GeminiService.mapImportCategories] is called with. *)
Definition oracle_batch (host : Host) (rawData : list ParsedRow)
  : list string :=
  firstn 1000
    (uniqueRawCategories_of
       (snd (category_source host (keys (hd [] rawData)) rawData))).

(** The fields of an expense that come from its row alone. *)
Definition expense_fields (e : Expense) : jsnum * string * cell :=
  (exp_amount e, exp_date e, exp_notes e).

(** A state of the application for the examples. *)
Definition sample_state : App.State :=
  {| App.st_expenses :=
       [ {| exp_id := "e1"; exp_amount := JFin 250 0;
            exp_description := "Pizza"; exp_categoryId := "c1";
            exp_date := "2024-03-01"; exp_notes := CStr "" |};
         {| exp_id := "e2"; exp_amount := JFin 90 0;
            exp_description := "Tea"; exp_categoryId := "c2";
            exp_date := "2024-03-02"; exp_notes := CStr "" |} ];
     App.st_categories := Sample.categories |}.

(** A token is covered when a category of [existing] has its key for
    name, in lower case, or the session map has an entry for the key. *)
Definition covered (existing : list Category) (st : Session) (t : string)
  : Prop :=
  strict_match existing (token_key t) <> None \/
  JsMap.get (newCategoriesCreatedMap st) (token_key t) <> None.

(** A token is settled when it is blank or a category of [existing] has
    its key for name, in lower case. *)
Definition settled (existing : list Category) (t : string) : Prop :=
  token_key t = "" \/ strict_match existing (token_key t) <> None.

(** The session map holds entries for the empty key only. *)
Definition blank_only (run : Session * list Expense) : Prop :=
  Forall (fun entry : string * Category => fst entry = "")
         (newCategoriesCreatedMap (fst run)).

(** The sample host at a later call: another clock, other identifiers
    and colours; the time zone and the printing of dates are the same. *)
Definition sample_later_host : Host :=
  {| timezoneOffset := timezoneOffset Sample.host;
     utcOfLocal := utcOfLocal Sample.host;
     now := now Sample.host + 86400000;
     dateParse := dateParse Sample.host;
     dateToString := dateToString Sample.host;
     uuidv4 := fun n => "later-" ++ JsNumber.nat_digits n;
     randomIndex := fun n => (n + 5)%nat |}.

(** The identifiers of a run: each is a [uuidv4] already taken, none is
    used twice. *)
Definition ids_ok (host : Host) (run : Session * list Expense) : Prop :=
  let n := uuidCount (fst run) in
  let cats := JsMap.values (newCategoriesCreatedMap (fst run)) in
  (forall e, In e (snd run) ->
             exists k, (k < n)%nat /\ exp_id e = uuidv4 host k)
  /\ (forall c, In c cats ->
                exists k, (k < n)%nat /\ cat_id c = uuidv4 host k)
  /\ NoDup (map exp_id (snd run) ++ map cat_id cats).

(** The amount, date and notes of the expenses a matrix row gives: one
    for each header whose cell holds a positive amount. *)
Definition matrix_row_fields (host : Host) (dateKey : string)
    (uniqueRawCategories : list string) (row : ParsedRow)
  : list (jsnum * string * cell) :=
  map (fun h => (matrix_amount host (row_get row h),
                 parseDate host (row_get row dateKey),
                 CStr "Imported via Matrix"))
      (matrix_row_tokens host dateKey uniqueRawCategories row).

(** * Properties *)

(** ** The embedding on samples *)

Example parseFloat_samples :
  map JsNumber.parseFloat
      ["500"; "-200"; "1,200"; "  12.50e1x"; ".5"; "."; "abc"; "";
       "1e-400"; "1e400"; "-Infinity!"; "1.e2"; "1e+"; "0.000"]
  = [JFin 500 0; JFin (-200) 0; JFin 1 0; JFin 1250 (-1); JFin 5 (-1);
     JNaN; JNaN; JNaN; JFin 0 0; JInf false; JInf true; JFin 1 2;
     JFin 1 0; JFin 0 0].
Proof. vm_compute. reflexivity. Qed.

Example toString_samples :
  map JsNumber.toString
      [JFin 500 0; JFin (-200) 0; JFin 125 (-1); JFin 5 (-1); JFin 1 21;
       JFin 1 (-7); JFin 15 (-8); JFin 12 20; JFin 1200 (-2); JFin 0 5]
  = ["500"; "-200"; "12.5"; "0.5"; "1e+21"; "1e-7"; "1.5e-7";
     "1.2e+21"; "12"; "0"].
Proof. vm_compute. reflexivity. Qed.

Example toTitleCase_samples :
  map toTitleCase ["anv med"; "FOOD"; "a-b c"; "-abc"; "  "]
  = ["Anv Med"; "Food"; "A-b C"; "-Abc"; "  "].
Proof. vm_compute. reflexivity. Qed.

Example trim_samples :
  map trim ["  a b  "; "   "; ""; "x"] = ["a b"; ""; ""; "x"].
Proof. vm_compute. reflexivity. Qed.

Example civil_samples :
  map JsDate.civil_from_days
      [0; 19787; -1; JsDate.MakeDay 2024 1 31; JsDate.MakeDay 2024 (-1) 0;
       JsDate.MakeDay 9999 98 31]
  = [(1970, 1, 1); (2024, 3, 5); (1969, 12, 31); (2024, 3, 2); (2023, 11, 30);
     (10007, 3, 31)].
Proof. vm_compute. reflexivity. Qed.

Example match_dmy_samples :
  map JsDate.match_dmy
      ["05-03-2024"; "5/3/2024"; "05-03-24"; "2024-03-05"; "123-1-2024";
       "05-03-2024 "; "1-2/0099"]
  = [Some (5, 3, 2024); Some (5, 3, 2024); None; None; None; None;
     Some (1, 2, 99)].
Proof. vm_compute. reflexivity. Qed.

(** Three rows [Date, Description, Amount] with amounts 500, -200 and 0,
    no oracle: two expenses, each with a category made from its
    description. *)
Example parseFile_three_rows :
  let result :=
    parseFile Sample.host Sample.categories Sample.failing_oracle
      [ [("Date", CStr "2024-01-01"); ("Description", CStr "kirana store");
         ("Amount", CNum (JFin 500 0))];
        [("Date", CStr "2024-01-02"); ("Description", CStr "swiggy order");
         ("Amount", CNum (JFin (-200) 0))];
        [("Date", CStr "2024-01-03"); ("Description", CStr "");
         ("Amount", CNum (JFin 0 0))] ] in
  map (fun e => (exp_amount e, exp_description e, exp_categoryId e, exp_date e))
      (expenses result)
  = [(JFin 500 0, "kirana store", "uuid-0", "2024-01-01");
     (JFin 200 0, "swiggy order", "uuid-2", "2024-01-02")]
  /\ map (fun c => (cat_id c, cat_name c)) (newCategories result)
     = [("uuid-0", "Kirana Store"); ("uuid-2", "Swiggy Order")].
Proof. split; vm_compute; reflexivity. Qed.

(** A matrix sheet: the cell [1,200] under [Food] counts for 1200, [5e3]
    (5000) under [Rent] makes a new category, [Total] is no category. *)
Example parseFile_matrix :
  map (fun e => (exp_amount e, exp_description e, exp_categoryId e, exp_date e))
      (expenses (parseFile Sample.host Sample.categories Sample.failing_oracle
                           Sample.matrix_sheet))
  = [(JFin 1200 0, "Food Expense", "c1", "2024-03-05");
     (JFin 5000 0, "Rent Expense", "uuid-1", "2024-03-05")].
Proof. vm_compute. reflexivity. Qed.

(** ** Facts on strings *)

Lemma trimStart_fixed s :
  match s with String c _ => is_space c = false | EmptyString => True end ->
  trimStart s = s.
Proof. destruct s as [|c r]; simpl; [reflexivity|]. now intros ->. Qed.

Lemma trimEnd_head s :
  match s with String c _ => is_space c = false | EmptyString => True end ->
  match trimEnd s with
  | String c _ => is_space c = false
  | EmptyString => True
  end.
Proof.
  destruct s as [|c r]; simpl; [trivial|]. intros Hc.
  destruct (trimEnd r); [rewrite Hc|]; exact Hc.
Qed.

Lemma trimStart_head s :
  match trimStart s with
  | String c _ => is_space c = false
  | EmptyString => True
  end.
Proof.
  induction s as [|c r IH]; simpl; [trivial|].
  destruct (is_space c) eqn:E; [exact IH | exact E].
Qed.

Lemma trimEnd_idempotent s : trimEnd (trimEnd s) = trimEnd s.
Proof.
  induction s as [|c r IH]; simpl; [reflexivity|].
  destruct (trimEnd r) as [|c' r'] eqn:E.
  - destruct (is_space c) eqn:Ec; simpl; [reflexivity | now rewrite Ec].
  - simpl in *. now rewrite IH.
Qed.

Lemma trim_idempotent s : trim (trim s) = trim s.
Proof.
  unfold trim.
  rewrite (trimStart_fixed (trimEnd (trimStart s))).
  - apply trimEnd_idempotent.
  - apply trimEnd_head, trimStart_head.
Qed.

Lemma set_add_in x y l : In y (set_add x l) -> y = x \/ In y l.
Proof.
  unfold set_add. destruct (mem x l); [now right|].
  intros H. apply in_app_or in H as [H|[H|[]]]; auto.
Qed.

Section SourceFacts.
Variable host : Host.

Lemma column_values_trimmed aliases rawData t :
  In t (column_values host aliases rawData) -> trim t = t.
Proof.
  unfold column_values.
  assert (G : forall rows acc,
             (forall x, In x acc -> trim x = x) ->
             forall x, In x (fold_left
               (fun set row =>
                  match if_truthy (getVal row aliases) with
                  | Some val => set_add (trim (cell_toString host val)) set
                  | None => set
                  end) rows acc) -> trim x = x).
  { induction rows as [|row rows IH]; simpl; intros acc Hacc; [exact Hacc|].
    apply IH. destruct (if_truthy _); [|exact Hacc].
    intros x Hx. apply set_add_in in Hx as [->|Hx];
      [apply trim_idempotent | auto]. }
  apply (G rawData []). intros x [].
Qed.

Lemma matrix_headers_trimmed dateKey headers t :
  In t (matrix_headers dateKey headers) -> trim t = t.
Proof.
  unfold matrix_headers.
  assert (G : forall hs acc,
             (forall x, In x acc -> trim x = x) ->
             forall x, In x (fold_left
               (fun set h =>
                  let lowerH := trim (toLowerCase h) in
                  if JsString.truthy lowerH
                     && negb (mem lowerH (ignoredHeaders dateKey))
                     && negb (includes lowerH "total")
                  then set_add (trim h) set else set) hs acc) -> trim x = x).
  { induction hs as [|h hs IH]; simpl; intros acc Hacc; [exact Hacc|].
    apply IH. destruct (_ && _); [|exact Hacc].
    intros x Hx. apply set_add_in in Hx as [->|Hx];
      [apply trim_idempotent | auto]. }
  apply (G headers []). intros x [].
Qed.

Lemma tokens_trimmed headers rawData t :
  In t (uniqueRawCategories_of (snd (category_source host headers rawData))) ->
  trim t = t.
Proof.
  unfold uniqueRawCategories_of. intros H. apply filter_In in H as [H _].
  unfold category_source in H.
  destruct (isMatrixMode headers).
  - destruct (find is_date_header headers); simpl in H; [|contradiction].
    eapply matrix_headers_trimmed; eauto.
  - destruct (shouldUseDescription host rawData); simpl in H;
      eapply column_values_trimmed; eauto.
Qed.

End SourceFacts.

(** ** Facts on the session map *)

Lemma JsMap_get_set_same m k v : JsMap.get (JsMap.set m k v) k = Some v.
Proof.
  induction m as [|[k' v'] m IH]; simpl.
  - now rewrite String.eqb_refl.
  - destruct (k' =? k)%string eqn:E; simpl.
    + now rewrite String.eqb_refl.
    + now rewrite E.
Qed.

Lemma JsMap_get_set_other m k v k' :
  k <> k' -> JsMap.get (JsMap.set m k v) k' = JsMap.get m k'.
Proof.
  intros Hk. induction m as [|[k0 v0] m IH]; simpl.
  - destruct (k =? k')%string eqn:E; [|reflexivity].
    apply String.eqb_eq in E. contradiction.
  - destruct (k0 =? k)%string eqn:E; simpl.
    + apply String.eqb_eq in E; subst k0.
      destruct (k =? k')%string eqn:E'; [|reflexivity].
      apply String.eqb_eq in E'. contradiction.
    + destruct (k0 =? k')%string; [reflexivity | exact IH].
Qed.

Lemma JsMap_get_values m k c :
  JsMap.get m k = Some c -> In c (JsMap.values m).
Proof.
  induction m as [|[k' v] m IH]; simpl; [discriminate|].
  destruct (k' =? k)%string; [intros [= ->]; now left | right; auto].
Qed.

Lemma JsMap_set_absent m k v :
  JsMap.get m k = None -> JsMap.set m k v = (m ++ [(k, v)])%list.
Proof.
  induction m as [|[k' v'] m IH]; simpl; intros H; [reflexivity|].
  destruct (k' =? k)%string; [discriminate | now rewrite IH].
Qed.

Lemma JsMap_values_set_absent m k v :
  JsMap.get m k = None ->
  JsMap.values (JsMap.set m k v) = (JsMap.values m ++ [v])%list.
Proof.
  intros H. rewrite JsMap_set_absent by exact H.
  unfold JsMap.values. now rewrite map_app.
Qed.

Section ResolverFacts.

Variable host : Host.
Variable existing : list Category.
Variable ai : AiMapping.


(** The four ways [resolveCategory] returns. *)
Ltac resolve_cases t st :=
  unfold resolveCategory;
  destruct (ai_choice existing ai t) as [?id|] eqn:?Hai;
  [| destruct (JsMap.get (newCategoriesCreatedMap st) (toLowerCase (trim t)))
       as [?c|] eqn:?Hget;
     [| destruct (find (fun c => (toLowerCase (cat_name c)
                                  =? toLowerCase (trim t))%string) existing)
          as [?strictMatch|] eqn:?Hstrict ] ];
  cbn [fst snd newCategoriesCreatedMap res_id res_isNew res_originalName].

Lemma ai_choice_existing t id :
  ai_choice existing ai t = Some id -> exists c, In c existing /\ cat_id c = id.
Proof.
  unfold ai_choice.
  destruct (mapped_truthy _ && negb _); [|discriminate].
  destruct (find_by_mapped existing (mappedId_of ai t)) as [c|] eqn:F;
    [|discriminate].
  destruct (mappedId_of ai t) as [[s|b]|]; try discriminate.
  intros [= <-]. simpl in F. apply find_some in F as [Hin Heq].
  apply String.eqb_eq in Heq. eauto.
Qed.

Lemma resolve_values t st :
  exists extra,
    JsMap.values (newCategoriesCreatedMap
                    (snd (resolveCategory host existing ai t st)))
    = (JsMap.values (newCategoriesCreatedMap st) ++ extra)%list.
Proof.
  resolve_cases t st; try (exists []; now rewrite app_nil_r).
  eexists. now apply JsMap_values_set_absent.
Qed.

Lemma resolve_known t st :
  known existing
        (JsMap.values (newCategoriesCreatedMap
                         (snd (resolveCategory host existing ai t st))))
        (res_id (fst (resolveCategory host existing ai t st))).
Proof.
  resolve_cases t st.
  - left. eapply ai_choice_existing; eauto.
  - right. exists c. split; [|reflexivity].
    eapply JsMap_get_values; eauto.
  - left. apply find_some in Hstrict as [Hin _]. eauto.
  - right. eexists. split; [|reflexivity].
    rewrite JsMap_values_set_absent by exact Hget.
    apply in_or_app. right. now left.
Qed.

(** *** Every expense of a run refers to a known category *)

Lemma known_app news extra id :
  known existing news id -> known existing (news ++ extra)%list id.
Proof.
  intros [H|[c [Hin Hid]]]; [now left|].
  right. exists c. split; [apply in_or_app; now left | exact Hid].
Qed.

Lemma push_ok st acc amount desc cid date notes :
  run_ok existing (st, acc) ->
  known existing (JsMap.values (newCategoriesCreatedMap st)) cid ->
  run_ok existing (push host st acc amount desc cid date notes).
Proof.
  unfold run_ok, push. cbn [fst snd take_uuid newCategoriesCreatedMap].
  intros Hacc Hcid.
  apply Forall_app. split; [exact Hacc|].
  constructor; [exact Hcid | constructor].
Qed.

Lemma resolve_push_ok t st acc amount desc date notes :
  run_ok existing (st, acc) ->
  run_ok existing
         (push host (snd (resolveCategory host existing ai t st)) acc amount
               desc (res_id (fst (resolveCategory host existing ai t st)))
               date notes).
Proof.
  intros Hacc. apply push_ok; [|apply resolve_known].
  destruct (resolve_values t st) as [extra Hx].
  unfold run_ok in *. cbn [fst snd] in *. rewrite Hx.
  eapply Forall_impl; [|exact Hacc]. intros e. apply known_app.
Qed.

Lemma matrix_cell_ok row dateStr run h :
  run_ok existing run ->
  run_ok existing (matrix_cell host existing ai row dateStr run h).
Proof.
  destruct run as [st acc]. intros Hok. unfold matrix_cell.
  destruct (negb _ && _); [|exact Hok].
  pose proof (resolve_push_ok h st acc) as Hp.
  destruct (resolveCategory host existing ai h st) as [result st1].
  apply Hp. exact Hok.
Qed.

Lemma fold_left_ok {A}
    (f : Session * list Expense -> A -> Session * list Expense) l :
  (forall run a, run_ok existing run -> run_ok existing (f run a)) ->
  forall run, run_ok existing run -> run_ok existing (fold_left f l run).
Proof.
  intros Hf. induction l as [|a l IH]; simpl; intros run Hrun; [exact Hrun|].
  apply IH, Hf, Hrun.
Qed.

Lemma matrix_row_ok dateKey uniq run row :
  run_ok existing run ->
  run_ok existing (matrix_row host existing ai dateKey uniq run row).
Proof.
  intros Hok. unfold matrix_row.
  destruct (row_get row dateKey) as [v|]; [|exact Hok].
  destruct (negb (cell_truthy v)); [exact Hok|].
  destruct (_ || _); [exact Hok|].
  apply fold_left_ok; [|exact Hok]. intros. now apply matrix_cell_ok.
Qed.

Lemma list_row_ok explicit run row :
  run_ok existing run ->
  run_ok existing (list_row host existing ai explicit run row).
Proof.
  destruct run as [st acc]. intros Hok. unfold list_row.
  destruct (list_amount host row) as [amount|]; [|exact Hok].
  destruct (if_truthy _) as [raw|].
  - pose proof (resolve_push_ok (cell_toString host raw) st acc) as Hp.
   
    destruct (resolveCategory host existing ai (cell_toString host raw) st)
      as [result st1].
    apply Hp. exact Hok.
  - destruct (find _ existing) as [others|] eqn:F.
    + apply push_ok; [exact Hok|]. left.
      apply find_some in F as [Hin _]. eauto.
    + pose proof (resolve_push_ok "Others" st acc) as Hp.
      destruct (resolveCategory host existing ai "Others" st) as [result st1].
      apply Hp. exact Hok.
Qed.

Lemma process_rows_ok src headers uniq rawData :
  run_ok existing (process_rows host existing ai src headers uniq rawData).
Proof.
  assert (H0 : run_ok existing (new_session, [])) by constructor.
  unfold process_rows. destruct src.
  - apply fold_left_ok; [|exact H0]. intros. now apply list_row_ok.
  - apply fold_left_ok; [|exact H0]. intros. now apply list_row_ok.
  - destruct (find is_date_header headers); [|exact H0].
    apply fold_left_ok; [|exact H0]. intros. now apply matrix_row_ok.
Qed.

(** *** The same token resolves to the same category *)

Lemma resolve_by_ai t st id :
  ai_choice existing ai t = Some id ->
  resolveCategory host existing ai t st
  = ({| res_id := id; res_originalName := Some (trim t);
        res_isNew := false |}, st).
Proof. unfold resolveCategory. now intros ->. Qed.



(** An entry of the session map stays as it is. *)
Lemma step_keeps_entry st st' l c :
  session_step host existing ai st st' ->
  JsMap.get (newCategoriesCreatedMap st) l = Some c ->
  JsMap.get (newCategoriesCreatedMap st') l = Some c.
Proof.
  intros [t s|s] Hl; [|exact Hl].
  resolve_cases t s; try exact Hl.
  rewrite JsMap_get_set_other; [exact Hl|].
  intros <-. congruence.
Qed.


Lemma later_keeps_entry st st' l c :
  later host existing ai st st' ->
  JsMap.get (newCategoriesCreatedMap st) l = Some c ->
  JsMap.get (newCategoriesCreatedMap st') l = Some c.
Proof.
  induction 1 as [|s1 s2 s3 Hs _ IH]; [trivial|].
  intros H. eapply IH, step_keeps_entry; eauto.
Qed.



(** *** The sessions of a call follow one another *)

Lemma later_trans st1 st2 st3 :
  later host existing ai st1 st2 -> later host existing ai st2 st3 ->
  later host existing ai st1 st3.
Proof.
  induction 1 as [|s1 s2 s3 Hs _ IH]; [trivial|].
  intros H. eapply later_step; [exact Hs | now apply IH].
Qed.

Lemma push_later st st' acc amount desc cid date notes :
  later host existing ai st st' ->
  later host existing ai st
        (fst (push host st' acc amount desc cid date notes)).
Proof.
  intros H. eapply later_trans; [exact H|]. cbn [push fst].
  eapply later_step; [apply step_push | apply later_refl].
Qed.

Lemma resolve_later t st :
  later host existing ai st (snd (resolveCategory host existing ai t st)).
Proof. eapply later_step; [apply step_resolve | apply later_refl]. Qed.

Lemma fold_left_later {A}
    (f : Session * list Expense -> A -> Session * list Expense) l :
  (forall run a, later host existing ai (fst run) (fst (f run a))) ->
  forall run, later host existing ai (fst run) (fst (fold_left f l run)).
Proof.
  intros Hf. induction l as [|a l IH]; simpl; intros run; [apply later_refl|].
  eapply later_trans; [apply Hf | apply IH].
Qed.

Lemma matrix_cell_later row dateStr run h :
  later host existing ai (fst run)
        (fst (matrix_cell host existing ai row dateStr run h)).
Proof.
  destruct run as [st acc]. unfold matrix_cell.
  destruct (negb _ && _); [|apply later_refl].
  pose proof (resolve_later h st) as Hr.
  destruct (resolveCategory host existing ai h st) as [result st1].
  now apply push_later.
Qed.

Lemma matrix_row_later dateKey uniq run row :
  later host existing ai (fst run)
        (fst (matrix_row host existing ai dateKey uniq run row)).
Proof.
  unfold matrix_row.
  destruct (row_get row dateKey) as [v|]; [|apply later_refl].
  destruct (negb (cell_truthy v)); [apply later_refl|].
  destruct (_ || _); [apply later_refl|].
  apply fold_left_later. intros. apply matrix_cell_later.
Qed.

Lemma list_row_later explicit run row :
  later host existing ai (fst run)
        (fst (list_row host existing ai explicit run row)).
Proof.
  destruct run as [st acc]. unfold list_row.
  destruct (list_amount host row) as [amount|]; [|apply later_refl].
  destruct (if_truthy _) as [raw|].
  - pose proof (resolve_later (cell_toString host raw) st) as Hr.
    destruct (resolveCategory host existing ai (cell_toString host raw) st)
      as [result st1].
    now apply push_later.
  - destruct (find _ existing) as [others|].
    + apply push_later, later_refl.
    + pose proof (resolve_later "Others" st) as Hr.
      destruct (resolveCategory host existing ai "Others" st)
        as [result st1].
      now apply push_later.
Qed.

Lemma process_rows_later src headers uniq rawData :
  later host existing ai new_session
        (fst (process_rows host existing ai src headers uniq rawData)).
Proof.
  unfold process_rows. destruct src.
  - apply (fold_left_later (list_row host existing ai true) rawData
             (fun run row => list_row_later true run row) (new_session, [])).
  - apply (fold_left_later (list_row host existing ai false) rawData
             (fun run row => list_row_later false run row) (new_session, [])).
  - destruct (find is_date_header headers) as [dateKey|]; [|apply later_refl].
    apply (fold_left_later (matrix_row host existing ai dateKey uniq) rawData
             (fun run row => matrix_row_later dateKey uniq run row)
             (new_session, [])).
Qed.

End ResolverFacts.

(** ** The result of an import *)

(** C1.  Whatever the host, the oracle and the sheet, every expense of the
    result of [parseFile] has for [categoryId] the [id] of a category of
    [existingCategories] or of a category of the returned
    [newCategories]. *)
Theorem parseFile_categoryIds_known :
  forall (host : Host) (existingCategories : list Category)
         (mapImportCategories :
            list string -> list Category -> option AiMapping)
         (rawData : list ParsedRow),
    let result :=
      parseFile host existingCategories mapImportCategories rawData in
    Forall (fun e => known existingCategories (newCategories result)
                           (exp_categoryId e))
           (expenses result).
Proof.
  intros host existing oracle rawData. unfold parseFile.
  destruct rawData as [|first rest]; [constructor|].
  destruct (category_source host (keys first) (first :: rest)) as [src set].
  pose proof (process_rows_ok host existing
                (ai_step existing oracle (uniqueRawCategories_of set))
                src (keys first) (uniqueRawCategories_of set)
                (first :: rest)) as H.
  destruct (process_rows _ _ _ _ _ _ _) as [st acc]. exact H.
Qed.

(** ** The resolver *)




Lemma ai_choice_no_mapping existing t : ai_choice existing no_mapping t = None.
Proof.
  unfold ai_choice, mappedId_of, prop, no_mapping.
  destruct (mem (trim t) object_prototype_keys);
    destruct (mem (toLowerCase (trim t)) object_prototype_keys);
    destruct (mem t object_prototype_keys); reflexivity.
Qed.

(** C3.  An oracle that fails or returns an empty mapping gives the import
    its result as the empty mapping does; with the empty mapping every
    token resolves to the id of an existing category whose name equals the
    trimmed token case-insensitively, or to the id of a category created in
    the call; and the tokens collected from a sheet are trimmed already. *)
Theorem oracle_failure_still_resolves :
  forall (host : Host) (existing : list Category)
         (oracle : list string -> list Category -> option AiMapping)
         (rawData : list ParsedRow),
    (forall batch, oracle batch existing = None \/
                   oracle batch existing = Some no_mapping) ->
    parseFile host existing oracle rawData
    = parseFile host existing (fun _ _ => Some no_mapping) rawData
    /\
    (forall (t : string) (st : Session),
        let r := resolveCategory host existing no_mapping t st in
        (exists c, In c existing /\ cat_id c = res_id (fst r) /\
                   toLowerCase (cat_name c) = toLowerCase (trim t))
        \/
        (exists c, In c (JsMap.values (newCategoriesCreatedMap (snd r))) /\
                   cat_id c = res_id (fst r)))
    /\
    (forall t,
        In t (uniqueRawCategories_of
                (snd (category_source host (keys (hd [] rawData)) rawData))) ->
        trim t = t).
Proof.
  intros host existing oracle rawData Horacle. repeat split.
  - assert (Hai : forall l, ai_step existing oracle l = no_mapping).
    { intros l. unfold ai_step.
      destruct (0 <? List.length l)%nat; [|reflexivity].
      destruct (Horacle (firstn 1000 l)) as [-> | ->]; reflexivity. }
    unfold parseFile. destruct rawData as [|first rest]; [reflexivity|].
    destruct (category_source host (keys first) (first :: rest)) as [src set].
    rewrite Hai. unfold ai_step at 1.
    destruct (0 <? List.length (uniqueRawCategories_of set))%nat; reflexivity.
  - intros t st r. subst r. unfold resolveCategory.
    rewrite ai_choice_no_mapping.
    destruct (JsMap.get (newCategoriesCreatedMap st) (toLowerCase (trim t)))
      as [c|] eqn:Hget.
    + right. exists c. split; [eapply JsMap_get_values; eauto | reflexivity].
    + destruct (find _ existing) as [m|] eqn:Hm;
        cbn [fst snd newCategoriesCreatedMap res_id].
      * left. apply find_some in Hm as [Hin Hname].
        apply String.eqb_eq in Hname. eauto.
      * right. eexists. split; [|reflexivity].
        rewrite JsMap_values_set_absent by exact Hget.
        apply in_or_app. right. now left.
  - apply tokens_trimmed.
Qed.

(** The sample sheet under an oracle that fails. *)
Lemma oracle_failure_still_resolves_witness :
  parseFile Sample.host Sample.categories Sample.failing_oracle
            Sample.case_sheet
  = parseFile Sample.host Sample.categories (fun _ _ => Some no_mapping)
              Sample.case_sheet.
Proof.
  apply (oracle_failure_still_resolves Sample.host Sample.categories
           Sample.failing_oracle Sample.case_sheet).
  intros batch. left. reflexivity.
Defined.

Lemma or_else_first_truthy a b c :
  or_else a (or_else b c) = first_truthy [a; b; c].
Proof. reflexivity. Qed.

(** C8, as amended.  The oracle's object is asked for the trimmed token,
    then for the lower-cased trimmed token, then for the token as given,
    and the first truthy answer counts.  When that answer is the id of a
    category in [existingCategories] (and not [NEW]), it is returned with
    [isNew = false] and the session is left alone; every other answer has
    no effect: the token resolves as with an empty mapping. *)
Theorem resolve_consults_mapping :
  forall (host : Host) (existing : list Category) (ai : AiMapping)
         (rawInput : string) (st : Session),
    let answer :=
      first_truthy [prop ai (trim rawInput);
                    prop ai (toLowerCase (trim rawInput));
                    prop ai rawInput] in
    match answer with
    | Some (MStr id) =>
        if JsString.truthy id && negb (id =? "NEW")%string
           && existsb (fun c => (cat_id c =? id)%string) existing
        then resolveCategory host existing ai rawInput st
             = ({| res_id := id; res_originalName := Some (trim rawInput);
                   res_isNew := false |}, st)
        else resolveCategory host existing ai rawInput st
             = resolveCategory host existing no_mapping rawInput st
    | _ => resolveCategory host existing ai rawInput st
           = resolveCategory host existing no_mapping rawInput st
    end.
Proof.
  intros host existing ai rawInput st answer.
  assert (Hfall : ai_choice existing ai rawInput = None ->
                  resolveCategory host existing ai rawInput st
                  = resolveCategory host existing no_mapping rawInput st).
  { intros H. unfold resolveCategory. now rewrite H, ai_choice_no_mapping. }
  assert (Hans : mappedId_of ai rawInput = answer)
    by apply or_else_first_truthy.
  unfold ai_choice in Hfall. rewrite Hans in Hfall.
  destruct answer as [[id|b]|].
  - cbn [mapped_truthy is_NEW find_by_mapped] in Hfall.
    destruct (JsString.truthy id && negb (id =? "NEW")%string) eqn:E1;
      cbn [andb].
    + destruct (existsb _ existing) eqn:E2.
      * apply resolve_by_ai. unfold ai_choice. rewrite Hans.
        cbn [mapped_truthy is_NEW find_by_mapped]. rewrite E1.
        destruct (find _ existing) eqn:F; [reflexivity|].
        apply existsb_exists in E2 as [c [Hin Hc]].
        eapply find_none in F; eauto. cbn in F. congruence.
      * apply Hfall. destruct (find _ existing) eqn:F; [|reflexivity].
        apply find_some in F as [Hin Hc].
        assert (existsb (fun c => (cat_id c =? id)%string) existing = true)
          by (apply existsb_exists; eauto).
        congruence.
    + apply Hfall. reflexivity.
  - apply Hfall. cbn. now destruct b.
  - apply Hfall. reflexivity.
Qed.

(** C8, as stated, fails: the token [Food ] has an entry of its own and its
    trimmed form another; the code returns the one of the trimmed form. *)
Lemma resolve_prefers_trimmed_key :
  let ai := Sample.mapping_of [("Food ", "c1"); ("Food", "c2")] in
  spec_mappedId_of ai "Food " = Some (MStr "c1") /\
  find_by_id Sample.categories "c1" = Some (Sample.category "c1" "Food") /\
  fst (resolveCategory Sample.host Sample.categories ai "Food " new_session)
  = {| res_id := "c2"; res_originalName := Some "Food"; res_isNew := false |}.
Proof. repeat split; vm_compute; reflexivity. Qed.

(** ** Rows in List mode *)

Lemma underflows_abs m e :
  JsNumber.underflows (Z.abs m) e = JsNumber.underflows m e.
Proof.
  unfold JsNumber.underflows. rewrite Z.abs_idemp.
  destruct (0 <=? e); [|reflexivity].
  destruct (Z.eqb_spec m 0) as [->|Hm]; [reflexivity|].
  apply Z.eqb_neq. lia.
Qed.

Lemma is_zero_abs n : JsNumber.is_zero (JsNumber.abs n) = JsNumber.is_zero n.
Proof.
  destruct n; simpl; [reflexivity | reflexivity | apply underflows_abs].
Qed.

Lemma isNaN_abs n : JsNumber.isNaN (JsNumber.abs n) = JsNumber.isNaN n.
Proof. now destruct n. Qed.

(** What [list_amount] is, from the cell [getVal] finds. *)
Lemma list_amount_eq host row :
  list_amount host row =
  match getVal row amount_aliases with
  | None => None
  | Some c =>
      let n := JsNumber.parseFloat (cell_toString host c) in
      if (match c with CStr "" => true | _ => false end)
         || JsNumber.isNaN n || JsNumber.is_zero n
      then None else Some (JsNumber.abs n)
  end.
Proof.
  unfold list_amount.
  destruct (getVal row amount_aliases) as [c|]; [|reflexivity].
  assert (G : (let n := JsNumber.parseFloat (cell_toString host c) in
               if JsNumber.isNaN n then None
               else if JsNumber.is_zero (JsNumber.abs n) then None
                    else Some (JsNumber.abs n))
              = (let n := JsNumber.parseFloat (cell_toString host c) in
                 if JsNumber.isNaN n || JsNumber.is_zero n then None
                 else Some (JsNumber.abs n))).
  { cbv zeta. rewrite is_zero_abs. now destruct (JsNumber.isNaN _). }
  destruct c as [s|n|b|t]; try exact G.
  destruct s as [|a s]; [reflexivity | exact G].
Qed.

(** A row whose amount is usable gives one expense. *)
Lemma list_row_emits host existing ai explicit st acc row amount :
  list_amount host row = Some amount ->
  exists st' e,
    list_row host existing ai explicit (st, acc) row = (st', (acc ++ [e])%list)
    /\ exp_amount e = amount
    /\ exp_description e =
       match if_truthy (if explicit then getVal row category_aliases
                        else Some (getVal_or row description_aliases
                                             "Imported Expense")) with
       | Some raw =>
           list_description host existing (negb explicit)
             (getVal_or row description_aliases "Imported Expense") raw
             (fst (resolveCategory host existing ai
                                   (cell_toString host raw) st))
       | None =>
           cell_toString host (getVal_or row description_aliases
                                         "Imported Expense")
       end.
Proof.
  intros Ha. unfold list_row. rewrite Ha.
  destruct (if_truthy _) as [raw|].
  - destruct (resolveCategory host existing ai (cell_toString host raw) st)
      as [result st1].
    unfold push. do 2 eexists. split; [reflexivity|]. split; reflexivity.
  - destruct (find _ existing) as [others|].
    + unfold push. do 2 eexists. split; [reflexivity|]. split; reflexivity.
    + destruct (resolveCategory host existing ai "Others" st) as [result st1].
      unfold push. do 2 eexists. split; [reflexivity|]. split; reflexivity.
Qed.

Lemma list_row_drops host existing ai explicit run row :
  list_amount host row = None ->
  list_row host existing ai explicit run row = run.
Proof. intros Ha. unfold list_row. destruct run. now rewrite Ha. Qed.












Lemma ai_choice_is_existing existing ai t id :
  ai_choice existing ai t = Some id ->
  exists c, find_by_id existing id = Some c.
Proof.
  unfold ai_choice.
  destruct (mapped_truthy _ && negb _); [|discriminate].
  destruct (find_by_mapped existing (mappedId_of ai t)) as [c|] eqn:F;
    [|discriminate].
  destruct (mappedId_of ai t) as [[s|b]|]; try discriminate.
  intros [= <-]. exists c. exact F.
Qed.

(** Which way of resolving leaves [!result.isNew && result.originalName]
    true: only the oracle's, and only for a token that is not blank. *)
Lemma mapped_to_existing_iff host existing ai t st :
  mapped_to_existing (fst (resolveCategory host existing ai t st))
  = match ai_choice existing ai t with
    | Some _ => JsString.truthy (trim t)
    | None => false
    end.
Proof.
  unfold resolveCategory.
  destruct (ai_choice existing ai t); [reflexivity|].
  destruct (JsMap.get _ _); [reflexivity|].
  destruct (find _ existing); reflexivity.
Qed.

Lemma res_id_by_ai host existing ai t st id :
  ai_choice existing ai t = Some id ->
  res_id (fst (resolveCategory host existing ai t st)) = id.
Proof. intros H. now rewrite (resolve_by_ai host existing ai t st id H). Qed.

(** List mode as it is written.  A list row that is kept and has a
    category token gets the token appended in parentheses to its
    description exactly when
    the explicit category column is the source, the oracle's mapping sent
    the token (which is not blank) to a category of [existingCategories]
    whose name is not empty, and the description does not contain the
    token, compared in lower case.  The name of the category is not
    compared with the token, and a category found by its name alone never
    has the token appended.  With the description as the source nothing
    is appended. *)
Theorem list_row_description :
  forall (host : Host) (existing : list Category) (ai : AiMapping)
         (explicit : bool) (st : Session) (acc : list Expense)
         (row : ParsedRow) (amount : jsnum) (raw : cell),
    list_amount host row = Some amount ->
    if_truthy (if explicit then getVal row category_aliases
               else Some (getVal_or row description_aliases
                                    "Imported Expense")) = Some raw ->
    let text := cell_toString host (getVal_or row description_aliases
                                              "Imported Expense") in
    let token := cell_toString host raw in
    let appended :=
      explicit
      && match ai_choice existing ai token with
         | Some id =>
             JsString.truthy (trim token)
             && match find_by_id existing id with
                | Some c => JsString.truthy (cat_name c)
                | None => false
                end
         | None => false
         end
      && negb (includes (toLowerCase text) (toLowerCase token)) in
    exists st' e,
      list_row host existing ai explicit (st, acc) row
      = (st', (acc ++ [e])%list)
      /\ exp_description e
         = (if appended then text ++ " (" ++ token ++ ")" else text)
      /\ (explicit = false -> exp_description e = text).
Proof.
  intros host existing ai explicit st acc row amount raw Ha Hraw text token
         appended.
  destruct (list_row_emits host existing ai explicit st acc row amount Ha)
    as (st' & e & Hrow & _ & Hdesc).
  exists st', e. split; [exact Hrow|].
  rewrite Hraw in Hdesc. fold token in Hdesc.
  assert (Hd : exp_description e
               = if appended then text ++ " (" ++ token ++ ")" else text).
  { rewrite Hdesc. unfold list_description. fold text token.
    rewrite mapped_to_existing_iff. subst appended.
    destruct explicit; [|reflexivity]. cbn [negb andb].
    destruct (ai_choice existing ai token) as [id|] eqn:Hai; [|reflexivity].
    rewrite (res_id_by_ai host existing ai token st id Hai).
    destruct (JsString.truthy (trim token)); [|reflexivity]. cbn [andb].
    unfold mapped_name.
    destruct (find_by_id existing id) as [c|]; [|reflexivity].
    destruct (JsString.truthy (cat_name c)); [|reflexivity]. cbn [andb].
    now destruct (includes _ _). }
  split; [exact Hd|].
  intros ->. rewrite Hd. reflexivity.
Qed.

(** [Pizza] in the category [Food], which the oracle maps to [c1]. *)
Lemma list_row_description_witness :
  exists st' e,
    list_row Sample.host Sample.categories
             (Sample.mapping_of [("Food", "c1")]) true (new_session, [])
             (hd [] Sample.pizza_sheet)
    = (st', [e])
    /\ exp_description e = "Pizza (Food)".
Proof.
  destruct (list_row_description Sample.host Sample.categories
              (Sample.mapping_of [("Food", "c1")]) true new_session []
              (hd [] Sample.pizza_sheet) (JFin 250 0) (CStr "Food")
              eq_refl eq_refl) as (st' & e & Hrow & Hdesc & _).
  exists st', e. split; [exact Hrow | exact Hdesc].
Defined.

(** C9.  The code at the failing input: a row [Pizza] with the category
    cell [Food], which the oracle maps to the existing category named
    [Food].  The name does not differ from the token, so the claim appends
    nothing; List mode gives [Pizza (Food)].  Matrix mode, for a header
    [Food] resolved the same way, compares the name with the header and
    appends nothing; and List mode itself appends nothing when the same
    category is reached by its name, without the oracle. *)
Lemma same_named_category_is_appended :
  let ai := Sample.mapping_of [("Food", "c1")] in
  let result :=
    fst (resolveCategory Sample.host Sample.categories ai "Food" new_session) in
  spec_appends_token Sample.categories true "Pizza" "Food" result = false /\
  map exp_description
      (expenses (parseFile Sample.host Sample.categories
                           (Sample.oracle_of [("Food", "c1")])
                           Sample.pizza_sheet))
  = ["Pizza (Food)"] /\
  matrix_description Sample.categories "Food" result = "Food Expense" /\
  map exp_description
      (expenses (parseFile Sample.host Sample.categories
                           Sample.failing_oracle Sample.pizza_sheet))
  = ["Pizza"].
Proof. repeat split; vm_compute; reflexivity. Qed.

(** ** Aliases of a header *)

(** C5, as amended.  [getVal] returns the cell under the first alias, in
    the order of the list, that names a header present in the row, the
    names compared in lower case, whether that cell is populated or not.
    The amount is looked up under [amount, amt, cost, price, debit,
    spending, value] and the description under [description, desc,
    details, particulars, narration].  An empty cell under that header is
    not passed over for a later alias: an empty amount leaves the row out,
    an empty description gives [Imported Expense]. *)
Theorem getVal_first_present_alias :
  forall (row : ParsedRow) (before after : list string)
         (alias foundKey : string),
    (forall a k, In a before -> In k (keys row) ->
                 toLowerCase k <> toLowerCase a) ->
    find (fun k => (toLowerCase k =? toLowerCase alias)%string) (keys row)
    = Some foundKey ->
    foundKey <> "" ->
    getVal row (before ++ alias :: after)%list = row_get row foundKey
    /\ amount_aliases
       = ["amount"; "amt"; "cost"; "price"; "debit"; "spending"; "value"]
    /\ description_aliases
       = ["description"; "desc"; "details"; "particulars"; "narration"]
    /\ (forall host existing ai explicit run,
           (before ++ alias :: after)%list = amount_aliases ->
           row_get row foundKey = Some (CStr "") ->
           list_row host existing ai explicit run row = run)
    /\ (forall v,
           (before ++ alias :: after)%list = description_aliases ->
           row_get row foundKey = Some v -> cell_truthy v = false ->
           getVal_or row description_aliases "Imported Expense"
           = CStr "Imported Expense").
Proof.
  intros row before after alias foundKey Hbefore Hfind Hkey.
  assert (Hget : getVal row (before ++ alias :: after)%list
                 = row_get row foundKey).
  { induction before as [|a before IH]; simpl.
    - rewrite Hfind. unfold JsString.truthy.
      destruct (String.eqb_spec foundKey ""); [contradiction | reflexivity].
    - destruct (find (fun k => (toLowerCase k =? toLowerCase a)%string)
                     (keys row)) as [k|] eqn:F.
      + apply find_some in F as [Hin Heq]. apply String.eqb_eq in Heq.
        exfalso. apply (Hbefore a k); [now left | exact Hin | exact Heq].
      + apply IH. intros a' k' Ha'. apply Hbefore. now right. }
  split; [exact Hget|]. split; [reflexivity|]. split; [reflexivity|]. split.
  - intros host existing ai explicit run Hal Hcell.
    apply list_row_drops. unfold list_amount.
    now rewrite <- Hal, Hget, Hcell.
  - intros v Hal Hcell Hv. unfold getVal_or.
    now rewrite <- Hal, Hget, Hcell, Hv.
Qed.

(** The row with blank [Amount] and [Description] cells: the amount is
    looked up under [Amount], the first alias. *)
Lemma getVal_first_present_alias_witness :
  getVal Sample.alias_row amount_aliases = Some (CStr "").
Proof.
  apply (getVal_first_present_alias Sample.alias_row []
           ["amt"; "cost"; "price"; "debit"; "spending"; "value"]
           "amount" "Amount").
  - intros a k [].
  - reflexivity.
  - discriminate.
Defined.

(** C5, as stated, fails: the header [Amount] is there with an empty cell
    and [Debit] holds 500; the populated alias would give 500 and [Taxi],
    the code finds the empty cells and leaves the row out. *)
Lemma empty_alias_cell_not_skipped :
  spec_first_populated Sample.alias_row amount_aliases
  = Some (CNum (JFin 500 0)) /\
  spec_first_populated Sample.alias_row description_aliases
  = Some (CStr "Taxi") /\
  getVal Sample.alias_row amount_aliases = Some (CStr "") /\
  getVal_or Sample.alias_row description_aliases "Imported Expense"
  = CStr "Imported Expense" /\
  expenses (parseFile Sample.host Sample.categories Sample.failing_oracle
                      [Sample.alias_row]) = [].
Proof. repeat split; vm_compute; reflexivity. Qed.

(** ** The source of the category tokens *)

Lemma mem_true_iff x l : mem x l = true <-> In x l.
Proof.
  unfold mem. rewrite existsb_exists. split.
  - intros [y [Hin Heq]]. apply String.eqb_eq in Heq. now subst.
  - intros Hin. exists x. split; [exact Hin | apply String.eqb_refl].
Qed.

Lemma set_add_iff x y l : In y (set_add x l) <-> y = x \/ In y l.
Proof.
  split; [apply set_add_in|]. unfold set_add.
  destruct (mem x l) eqn:E.
  - intros [->|H]; [now apply mem_true_iff | exact H].
  - intros [->|H]; apply in_or_app; [right; now left | now left].
Qed.

Lemma set_add_NoDup x l : NoDup l -> NoDup (set_add x l).
Proof.
  intros Hl. unfold set_add. destruct (mem x l) eqn:E; [exact Hl|].
  apply NoDup_app; [exact Hl | repeat constructor; intros [] |].
  intros y Hy [<-|[]]. apply mem_true_iff in Hy. congruence.
Qed.

Lemma if_truthy_Some v c :
  if_truthy v = Some c <-> v = Some c /\ cell_truthy c = true.
Proof.
  unfold if_truthy.
  destruct v as [c'|]; [|split; [discriminate | intros [? _]; discriminate]].
  destruct (cell_truthy c') eqn:E; split.
  - intros [= <-]. auto.
  - intros [[= <-] _]. reflexivity.
  - discriminate.
  - intros [[= <-] H]. congruence.
Qed.

Section ColumnValues.

Variable host : Host.
Variable aliases : list string.

(** The set collects the trimmed text of every truthy cell, once each. *)
Lemma column_values_iff rawData v :
  In v (column_values host aliases rawData) <->
  exists row c, In row rawData /\ getVal row aliases = Some c /\
                cell_truthy c = true /\ v = trim (cell_toString host c).
Proof.
  unfold column_values.
  enough (G : forall rows acc,
             In v (fold_left
               (fun set row =>
                  match if_truthy (getVal row aliases) with
                  | Some val => set_add (trim (cell_toString host val)) set
                  | None => set
                  end) rows acc) <->
             In v acc \/
             exists row c, In row rows /\ getVal row aliases = Some c /\
                           cell_truthy c = true /\
                           v = trim (cell_toString host c)).
  { rewrite G. split; [intros [[]|H]; exact H | now right]. }
  induction rows as [|row rows IH]; intros acc; simpl.
  - split; [now left | intros [H|(row & c & [] & _)]; exact H].
  - rewrite IH. split.
    + intros [H|(r & c & Hin & Hrest)].
      * destruct (if_truthy (getVal row aliases)) as [c|] eqn:E; [|now left].
        apply set_add_iff in H as [->|H]; [|now left].
        apply if_truthy_Some in E as [E1 E2].
        right. exists row, c. auto.
      * right. exists r, c. auto.
    + intros [H|(r & c & [<-|Hin] & Hg & Ht & Hv)].
      * left. destruct (if_truthy _); [apply set_add_iff; now right | exact H].
      * left. assert (E : if_truthy (getVal row aliases) = Some c)
          by (apply if_truthy_Some; auto).
        rewrite E. apply set_add_iff. now left.
      * right. exists r, c. auto.
Qed.

Lemma column_values_NoDup rawData : NoDup (column_values host aliases rawData).
Proof.
  unfold column_values.
  enough (G : forall rows acc, NoDup acc ->
             NoDup (fold_left
               (fun set row =>
                  match if_truthy (getVal row aliases) with
                  | Some val => set_add (trim (cell_toString host val)) set
                  | None => set
                  end) rows acc)).
  { apply G. constructor. }
  induction rows as [|row rows IH]; intros acc Hacc; simpl; [exact Hacc|].
  apply IH. destruct (if_truthy _); [now apply set_add_NoDup | exact Hacc].
Qed.

End ColumnValues.

Lemma filter_all {A} (f : A -> bool) l :
  (forall x, In x l -> f x = true) -> filter f l = l.
Proof.
  induction l as [|a l IH]; simpl; intros H; [reflexivity|].
  rewrite (H a) by now left. f_equal. apply IH. intros x Hx. apply H. now right.
Qed.

(** C4, as amended.  In List mode the explicit category column is given up
    for the description column exactly when it yields no value at all
    (there is no such column, or none of its cells is truthy), or more
    than half of its values are generic terms, or it has fewer than 3
    values while the sheet has more than 5 rows.  Its values are the
    distinct trimmed texts of its truthy cells; a cell of white space
    counts with the empty text.  The tokens are then the values of the
    description column, and those of the category column otherwise.  A
    column whose values are [Debit] and [Credit] is given up. *)
Theorem category_column_rejected_iff :
  forall (host : Host) (headers : list string) (rawData : list ParsedRow),
    isMatrixMode headers = false ->
    let values := column_values host category_aliases rawData in
    let total := List.length values in
    let generic :=
      List.length (filter (fun i => mem (toLowerCase i) genericTerms) values) in
    (fst (category_source host headers rawData) = description <->
     values = [] \/ (total < 2 * generic)%nat \/
     ((total < 3)%nat /\ (5 < List.length rawData)%nat))
    /\
    (forall v, In v values <->
       exists row c, In row rawData /\
                     getVal row category_aliases = Some c /\
                     cell_truthy c = true /\
                     v = trim (cell_toString host c))
    /\ NoDup values
    /\
    category_source host headers rawData
    = (if shouldUseDescription host rawData
       then (description, column_values host description_aliases rawData)
       else (explicit_category, values))
    /\
    ((forall v, In v values <-> v = "Debit" \/ v = "Credit") ->
     category_source host headers rawData
     = (description, column_values host description_aliases rawData)).
Proof.
  intros host headers rawData Hlist values total generic.
  assert (Hsrc : category_source host headers rawData
                 = if shouldUseDescription host rawData
                   then (description,
                         column_values host description_aliases rawData)
                   else (explicit_category, values)).
  { unfold category_source. now rewrite Hlist. }
  assert (Hshould : shouldUseDescription host rawData = true <->
                    values = [] \/ (total < 2 * generic)%nat \/
                    ((total < 3)%nat /\ (5 < List.length rawData)%nat)).
  { unfold shouldUseDescription. fold values. fold total. fold generic.
    destruct (Nat.eqb_spec total 0) as [E|E].
    - split; [intros _|reflexivity]. left.
      subst total. now apply length_zero_iff_nil.
    - rewrite orb_true_iff, andb_true_iff, !Nat.ltb_lt. split.
      + intros H. right. exact H.
      + intros [H|H]; [|exact H]. subst total. rewrite H in E. now elim E. }
  split; [|split; [|split; [|split]]].
  - rewrite Hsrc, <- Hshould.
    destruct (shouldUseDescription host rawData); cbn [fst];
      split; congruence.
  - intros v. apply column_values_iff.
  - apply column_values_NoDup.
  - exact Hsrc.
  - intros Hvals. rewrite Hsrc.
    assert (Hs : shouldUseDescription host rawData = true).
    { apply Hshould. right. left.
      assert (Hall : filter (fun i => mem (toLowerCase i) genericTerms) values
                     = values).
      { apply filter_all. intros x Hx.
        apply Hvals in Hx as [->| ->]; reflexivity. }
      subst generic. rewrite Hall. fold total.
      assert (Hin : In "Debit" values) by (apply Hvals; now left).
      subst total. destruct values; [destruct Hin | simpl; lia]. }
    now rewrite Hs.
Qed.

(** Ten rows that say [Debit] or [Credit]: the payees are the tokens. *)
Lemma category_column_rejected_iff_witness :
  category_source Sample.host (keys (hd [] Sample.bank_sheet)) Sample.bank_sheet
  = (description,
     column_values Sample.host description_aliases Sample.bank_sheet).
Proof.
  apply (category_column_rejected_iff Sample.host
           (keys (hd [] Sample.bank_sheet)) Sample.bank_sheet eq_refl).
  intros v.
  change (column_values Sample.host category_aliases Sample.bank_sheet)
    with ["Debit"; "Credit"].
  simpl. intuition congruence.
Defined.

(** C4, as stated, fails: a sheet of one row has a category column, blank;
    none of the three conditions holds, and the description column is
    used. *)
Lemma blank_category_column_rejected :
  spec_category_column_exists Sample.blank_category_sheet = true /\
  spec_rejects_category_column Sample.host Sample.blank_category_sheet
  = false /\
  isMatrixMode (keys (hd [] Sample.blank_category_sheet)) = false /\
  category_source Sample.host (keys (hd [] Sample.blank_category_sheet))
                  Sample.blank_category_sheet
  = (description, ["tea"]).
Proof. repeat split; vm_compute; reflexivity. Qed.

(** ** Dates *)

Lemma is_leap_true y :
  JsDate.is_leap y = true <->
  (y mod 4 = 0 /\ y mod 100 <> 0) \/ y mod 400 = 0.
Proof.
  unfold JsDate.is_leap.
  rewrite orb_true_iff, andb_true_iff, negb_true_iff, !Z.eqb_eq, Z.eqb_neq.
  reflexivity.
Qed.

(** Inside an era the year, counted from March, is found again from the
    day of the era. *)
Lemma year_of_era yoe doy :
  0 <= yoe < 400 ->
  0 <= doy <= 364 \/ (doy = 365 /\ JsDate.is_leap (yoe + 1) = true) ->
  let doe := yoe * 365 + yoe / 4 - yoe / 100 + doy in
  0 <= doe < 146097 /\
  (doe - doe / 1460 + doe / 36524 - doe / 146096) / 365 = yoe.
Proof.
  intros Hy Hd doe. subst doe.
  destruct Hd as [Hd|[-> Hl]].
  - Z.div_mod_to_equations; lia.
  - apply is_leap_true in Hl.
    Z.div_mod_to_equations; lia.
Qed.

Lemma month_cases m : 1 <= m <= 12 ->
  m = 1 \/ m = 2 \/ m = 3 \/ m = 4 \/ m = 5 \/ m = 6 \/
  m = 7 \/ m = 8 \/ m = 9 \/ m = 10 \/ m = 11 \/ m = 12.
Proof. lia. Qed.

Ltac eval_ltb :=
  repeat match goal with
         | |- context [?a <? ?b] =>
             let c := eval vm_compute in (a <? b) in
             match c with
             | true => change (a <? b) with true
             | false => change (a <? b) with false
             end; cbv iota
         end.

Lemma month_of_year m d (leap : bool) :
  1 <= m <= 12 ->
  1 <= d <= (if m =? 2 then (if leap then 29 else 28)
             else if (m =? 4) || (m =? 6) || (m =? 9) || (m =? 11) then 30
                  else 31) ->
  let doy := JsDate.first_of_month m + d - 1 in
  (0 <= doy <= 364 \/ (doy = 365 /\ leap = true)) /\
  (let mp := (5 * doy + 2) / 153 in
   (if mp <? 10 then mp + 3 else mp - 9) = m /\
   doy - (153 * mp + 2) / 5 + 1 = d).
Proof.
  intros Hm Hd doy.
  assert (Hmp : (5 * doy + 2) / 153 = if 2 <? m then m - 3 else m + 9).
  { subst doy. unfold JsDate.first_of_month.
    destruct (month_cases m Hm)
      as [E|[E|[E|[E|[E|[E|[E|[E|[E|[E|[E|E]]]]]]]]]]];
      subst m; cbn in Hd; eval_ltb; destruct leap;
      (Z.div_mod_to_equations; lia). }
  cbv zeta. rewrite Hmp. subst doy. unfold JsDate.first_of_month.
  destruct (month_cases m Hm) as [E|[E|[E|[E|[E|[E|[E|[E|[E|[E|[E|E]]]]]]]]]]];
    subst m; cbn in Hd; eval_ltb;
    destruct leap; (Z.div_mod_to_equations; lia).
Qed.

Lemma date_of_day_of_era yoe m d :
  0 <= yoe < 400 -> 1 <= m <= 12 ->
  1 <= d <= JsDate.days_in_month (if m <=? 2 then yoe + 1 else yoe) m ->
  0 <= JsDate.day_of_era yoe m d < 146097 /\
  JsDate.date_of_era (JsDate.day_of_era yoe m d) = (yoe, m, d).
Proof.
  intros Hy Hm Hd.
  set (leap := JsDate.is_leap (yoe + 1)).
  assert (Hd' : 1 <= d <= (if m =? 2 then (if leap then 29 else 28)
             else if (m =? 4) || (m =? 6) || (m =? 9) || (m =? 11) then 30
                  else 31)).
  { unfold JsDate.days_in_month in Hd.
    destruct (Z.eqb_spec m 2) as [->|]; exact Hd. }
  destruct (month_of_year m d leap Hm Hd') as [Hdoy [Hmonth Hday]].
  set (doy := JsDate.first_of_month m + d - 1) in *.
  destruct (year_of_era yoe doy Hy Hdoy) as [Hrange Hyear].
  assert (Hdoe : JsDate.day_of_era yoe m d
                 = yoe * 365 + yoe / 4 - yoe / 100 + doy).
  { unfold JsDate.day_of_era. subst doy. lia. }
  rewrite Hdoe. split; [exact Hrange|].
  unfold JsDate.date_of_era. rewrite Hyear.
  replace (yoe * 365 + yoe / 4 - yoe / 100 + doy
           - (365 * yoe + yoe / 4 - yoe / 100)) with doy by lia.
  cbv zeta in Hmonth, Hday. rewrite Hmonth, Hday. reflexivity.
Qed.

Lemma is_leap_era era k : JsDate.is_leap (k + era * 400) = JsDate.is_leap k.
Proof.
  unfold JsDate.is_leap.
  replace ((k + era * 400) mod 4) with (k mod 4)
    by (replace (era * 400) with (era * 100 * 4) by lia;
        now rewrite Z_mod_plus_full).
  replace ((k + era * 400) mod 100) with (k mod 100)
    by (replace (era * 400) with (era * 4 * 100) by lia;
        now rewrite Z_mod_plus_full).
  now rewrite Z_mod_plus_full.
Qed.

(** A date of the calendar is found again from its day number. *)
Lemma civil_round_trip y m d :
  1 <= m <= 12 -> 1 <= d <= JsDate.days_in_month y m ->
  JsDate.civil_from_days (JsDate.days_from_civil y m d) = (y, m, d).
Proof.
  intros Hm Hd. unfold JsDate.civil_from_days, JsDate.days_from_civil.
  set (y' := if m <=? 2 then y - 1 else y).
  set (era := y' / 400). set (yoe := y' - era * 400).
  assert (Hyoe : 0 <= yoe < 400).
  { subst yoe era. pose proof (Z.div_mod y' 400 ltac:(lia)).
    pose proof (Z.mod_pos_bound y' 400 ltac:(lia)). lia. }
  assert (Hdim : JsDate.days_in_month y m
                 = JsDate.days_in_month (if m <=? 2 then yoe + 1 else yoe) m).
  { unfold JsDate.days_in_month. destruct (m =? 2) eqn:E2; [|reflexivity].
    apply Z.eqb_eq in E2. subst m. cbn [Z.leb Z.compare].
    replace y with ((yoe + 1) + era * 400) by (subst yoe y'; cbn; lia).
    now rewrite is_leap_era. }
  rewrite Hdim in Hd.
  destruct (date_of_day_of_era yoe m d Hyoe Hm Hd) as [[H0 H1] Hdate].
  set (doe := JsDate.day_of_era yoe m d) in *.
  replace (era * 146097 + doe - 719468 + 719468) with (doe + era * 146097)
    by lia.
  rewrite Z.div_add by lia. rewrite (Z.div_small doe 146097) by lia.
  replace (doe + era * 146097 - (0 + era) * 146097) with doe by lia.
  rewrite Hdate. f_equal. f_equal. subst yoe y'. destruct (m <=? 2); lia.
Qed.

Lemma days_from_civil_day y m d :
  JsDate.days_from_civil y m 1 + d - 1 = JsDate.days_from_civil y m d.
Proof. unfold JsDate.days_from_civil, JsDate.day_of_era. lia. Qed.

Lemma isoDate_same_day t t' :
  t / JsDate.msPerDay = t' / JsDate.msPerDay ->
  JsDate.isoDate t = JsDate.isoDate t'.
Proof. unfold JsDate.isoDate. now intros ->. Qed.

Lemma match_dmy_truthy s r : JsDate.match_dmy s = Some r -> s <> "".
Proof. intros H ->. discriminate. Qed.

(** The date a calendar date of years 100 to 9999 is printed as. *)
Lemma isoDate_local_midnight y m d :
  100 <= y <= 9999 -> 1 <= m <= 12 -> 1 <= d <= JsDate.days_in_month y m ->
  JsDate.isoDate (JsDate.local_midnight y (m - 1) d)
  = JsDate.pad 4 y ++ "-" ++ JsDate.pad 2 m ++ "-" ++ JsDate.pad 2 d.
Proof.
  intros Hy Hm Hd. unfold JsDate.isoDate, JsDate.local_midnight.
  assert (E99 : (0 <=? y) && (y <=? 99) = false).
  { apply andb_false_iff. right. apply Z.leb_gt. lia. }
  rewrite E99. unfold JsDate.MakeDay.
  rewrite (Z.div_small (m - 1) 12) by lia.
  rewrite (Z.mod_small (m - 1) 12) by lia.
  replace (y + 0) with y by lia. replace (m - 1 + 1) with m by lia.
  rewrite days_from_civil_day.
  rewrite Z.div_mul by (unfold JsDate.msPerDay; lia).
  rewrite civil_round_trip by assumption.
  assert (E9999 : (0 <=? y) && (y <=? 9999) = true).
  { apply andb_true_iff. split; apply Z.leb_le; lia. }
  now rewrite E9999.
Qed.

(** C7.  A text of the form [D-M-YYYY] (one or two digits for day and
    month, [-] or [/] between) is taken as day, month, year: the result is
    the date of the local midnight built from them, which for a date of
    the calendar is the year, month and day printed [YYYY-MM-DD];
    [05-03-2024] gives [2024-03-05].  A date object gives the date of its
    local time.  An absent or empty value, and a text that is neither of
    that form nor a date for the host, give the date of the clock. *)
Theorem parseDate_rules :
  forall (host : Host),
    (forall s day month year,
        JsDate.match_dmy s = Some (day, month, year) ->
        host_keeps_day host (JsDate.local_midnight year (month - 1) day) ->
        parseDate host (Some (CStr s))
        = JsDate.isoDate (JsDate.local_midnight year (month - 1) day))
    /\
    (forall year month day,
        100 <= year <= 9999 -> 1 <= month <= 12 ->
        1 <= day <= JsDate.days_in_month year month ->
        JsDate.isoDate (JsDate.local_midnight year (month - 1) day)
        = JsDate.pad 4 year ++ "-" ++ JsDate.pad 2 month ++ "-"
          ++ JsDate.pad 2 day)
    /\
    (host_keeps_day host (JsDate.local_midnight 2024 2 5) ->
     parseDate host (Some (CStr "05-03-2024")) = "2024-03-05")
    /\
    (forall t,
        parseDate host (Some (CDate t))
        = JsDate.isoDate (t - timezoneOffset host t * JsDate.msPerMinute))
    /\ parseDate host None = JsDate.isoDate (now host)
    /\
    (forall v,
        cell_truthy v = false ->
        parseDate host (Some v) = JsDate.isoDate (now host))
    /\
    (forall s,
        JsDate.match_dmy s = None -> dateParse host s = None ->
        parseDate host (Some (CStr s)) = JsDate.isoDate (now host))
    /\
    (forall n,
        generic_date host (CNum n) = None ->
        parseDate host (Some (CNum n)) = JsDate.isoDate (now host)).
Proof.
  intros host.
  assert (A : forall s day month year,
             JsDate.match_dmy s = Some (day, month, year) ->
             host_keeps_day host (JsDate.local_midnight year (month - 1) day) ->
             parseDate host (Some (CStr s))
             = JsDate.isoDate (JsDate.local_midnight year (month - 1) day)).
  { intros s day month year Hs [Hclip Hday]. unfold parseDate.
    assert (Ht : cell_truthy (CStr s) = true).
    { cbn. unfold JsString.truthy.
      destruct (String.eqb_spec s ""); [|reflexivity].
      now apply match_dmy_truthy in Hs. }
    rewrite Ht, Hs. cbn [negb]. unfold JsDate.TimeClip.
    apply Z.leb_le in Hclip. rewrite Hclip.
    now apply isoDate_same_day. }
  split; [exact A|]. split; [apply isoDate_local_midnight|].
  split; [|split; [|split; [|split; [|split]]]].
  - intros H. rewrite (A "05-03-2024" 5 3 2024 eq_refl H).
    vm_compute. reflexivity.
  - reflexivity.
  - reflexivity.
  - intros v Hv. unfold parseDate. now rewrite Hv.
  - intros s Hs Hp. unfold parseDate.
    destruct (negb (cell_truthy (CStr s))); [reflexivity|].
    rewrite Hs. unfold generic_or_today, generic_date. now rewrite Hp.
  - intros n Hn. unfold parseDate.
    destruct (negb (cell_truthy (CNum n))); [reflexivity|].
    unfold generic_or_today. now rewrite Hn.
Qed.

(** The sample host: [05-03-2024] is the fifth of March, and so is a date
    object for the local midnight of that day. *)
Lemma parseDate_rules_witness :
  parseDate Sample.host (Some (CStr "05-03-2024")) = "2024-03-05" /\
  parseDate Sample.host (Some (CDate 1709577000000)) = "2024-03-05".
Proof.
  split.
  - apply (proj1 (proj2 (proj2 (parseDate_rules Sample.host)))).
    split; [vm_compute; discriminate | vm_compute; reflexivity].
  - rewrite (proj1 (proj2 (proj2 (proj2 (parseDate_rules Sample.host))))).
    vm_compute. reflexivity.
Defined.

(** * More of the import and of its callers *)

(** ** Characters and title case *)

Ltac all_chars c := destruct c as [[] [] [] [] [] [] [] []]; reflexivity.

Lemma lower_char_idempotent c : lower_char (lower_char c) = lower_char c.
Proof. all_chars c. Qed.

Lemma lower_upper_char c : lower_char (upper_char c) = lower_char c.
Proof. all_chars c. Qed.

Lemma upper_char_idempotent c : upper_char (upper_char c) = upper_char c.
Proof. all_chars c. Qed.

Lemma is_space_lower_char c : is_space (lower_char c) = is_space c.
Proof. all_chars c. Qed.

Lemma is_word_upper_char c : is_word (upper_char c) = is_word c.
Proof. all_chars c. Qed.

Lemma is_word_space c : is_word c = true -> is_space c = false.
Proof.
  destruct c as [[] [] [] [] [] [] [] []]; (reflexivity || discriminate).
Qed.

Lemma is_space_upper_char c : is_space (upper_char c) = is_space c.
Proof. all_chars c. Qed.

Lemma titleCase_scan_length inword s :
  String.length (titleCase_scan inword s) = String.length s.
Proof.
  revert inword. induction s as [|c r IH]; intros inword; [reflexivity|].
  simpl. destruct inword; [destruct (is_space c) | destruct (is_word c)];
    simpl; now rewrite IH.
Qed.

Lemma titleCase_scan_lower inword s :
  toLowerCase (titleCase_scan inword s) = toLowerCase s.
Proof.
  revert inword. induction s as [|c r IH]; intros inword; [reflexivity|].
  unfold toLowerCase in *. simpl.
  destruct inword; [destruct (is_space c) | destruct (is_word c)];
    simpl; rewrite IH; try reflexivity.
  - now rewrite lower_char_idempotent.
  - now rewrite lower_upper_char.
Qed.

Lemma titleCase_scan_idempotent inword s :
  titleCase_scan inword (titleCase_scan inword s) = titleCase_scan inword s.
Proof.
  revert inword. induction s as [|c r IH]; intros inword; [reflexivity|].
  simpl. destruct inword.
  - destruct (is_space c) eqn:E; simpl.
    + now rewrite E, IH.
    + now rewrite is_space_lower_char, E, lower_char_idempotent, IH.
  - destruct (is_word c) eqn:E; simpl.
    + now rewrite is_word_upper_char, E, upper_char_idempotent, IH.
    + now rewrite E, IH.
Qed.

(** X1.  [toTitleCase] changes the case of letters and nothing else: the
    result has the length of the text and the same lower-case form, and
    applying it again changes nothing. *)
Theorem toTitleCase_case_only :
  forall s : string,
    String.length (toTitleCase s) = String.length s /\
    toLowerCase (toTitleCase s) = toLowerCase s /\
    toTitleCase (toTitleCase s) = toTitleCase s.
Proof.
  intros s. unfold toTitleCase. split; [|split].
  - apply titleCase_scan_length.
  - apply titleCase_scan_lower.
  - apply titleCase_scan_idempotent.
Qed.

(** ** One call of the resolver, one run over the rows *)

Lemma toLowerCase_length s : String.length (toLowerCase s) = String.length s.
Proof.
  unfold toLowerCase. induction s as [|c r IH]; simpl; [reflexivity|].
  now rewrite IH.
Qed.

Lemma length_zero_empty s : String.length s = 0%nat <-> s = "".
Proof. destruct s; simpl; split; (reflexivity || discriminate). Qed.

Lemma toLowerCase_empty s : toLowerCase s = "" <-> s = "".
Proof.
  rewrite <- !length_zero_empty. now rewrite toLowerCase_length.
Qed.

Lemma toTitleCase_empty s : toTitleCase s = "" <-> s = "".
Proof.
  rewrite <- !length_zero_empty.
  unfold toTitleCase. now rewrite titleCase_scan_length.
Qed.

Lemma truthy_true s : JsString.truthy s = true <-> s <> "".
Proof.
  unfold JsString.truthy. destruct (String.eqb_spec s ""); split;
    (congruence || discriminate || reflexivity || auto).
Qed.

Lemma generateRandomColor_in host n : In (generateRandomColor host n) colors.
Proof.
  unfold generateRandomColor. apply nth_In.
  change (List.length colors) with 12%nat.
  apply Nat.mod_upper_bound. discriminate.
Qed.

Section Outcome.

Variable host : Host.
Variable existing : list Category.
Variable ai : AiMapping.

(** [resolveCategory] leaves the session as it is, or it puts one entry
    under a key that was not there: a category with the next identifier,
    which is the one it returns. *)
Lemma resolve_outcome t st :
  let r := resolveCategory host existing ai t st in
  snd r = st \/
  exists c,
    JsMap.get (newCategoriesCreatedMap st) (token_key t) = None /\
    newCategoriesCreatedMap (snd r)
    = (newCategoriesCreatedMap st ++ [(token_key t, c)])%list /\
    uuidCount (snd r) = S (uuidCount st) /\
    cat_id c = uuidv4 host (uuidCount st) /\
    res_id (fst r) = cat_id c /\
    entry_ok existing (token_key t, c).
Proof.
  unfold resolveCategory, token_key.
  destruct (ai_choice existing ai t); [now left|].
  destruct (JsMap.get _ _) eqn:Hget; [now left|].
  destruct (find _ existing) eqn:Hfind; [now left|].
  right. eexists. cbn [fst snd newCategoriesCreatedMap uuidCount res_id cat_id].
  split; [reflexivity|]. split; [now apply JsMap_set_absent|].
  split; [reflexivity|]. split; [reflexivity|]. split; [reflexivity|].
  unfold entry_ok. cbn [cat_isCustom cat_color cat_name].
  split; [exact Hfind|]. split; [reflexivity|].
  split; [apply generateRandomColor_in|].
  destruct (String.eqb_spec (trim t) "") as [E|E].
  - right. rewrite E. split; reflexivity.
  - left. split; [now rewrite toLowerCase_empty|].
    assert (Ht : JsString.truthy (toTitleCase (trim t)) = true)
      by (apply truthy_true; now rewrite toTitleCase_empty).
    rewrite Ht. apply titleCase_scan_lower.
Qed.

Lemma resolve_uuidCount t st :
  (uuidCount st
   <= uuidCount (snd (resolveCategory host existing ai t st)))%nat.
Proof.
  destruct (resolve_outcome t st) as [->|(c & _ & _ & -> & _)]; lia.
Qed.

(** What holds at the start and is kept when a token is resolved and an
    expense pushed, and when an expense is pushed for the category
    [Others], holds of the run over any sheet.  The amounts pushed are
    positive. *)
Lemma process_rows_ind (P : Session * list Expense -> Prop) :
  P (new_session, []) ->
  (forall st acc t amount desc date notes,
      P (st, acc) -> JsNumber.is_positive amount = true ->
      P (push host (snd (resolveCategory host existing ai t st)) acc amount
              desc (res_id (fst (resolveCategory host existing ai t st)))
              date notes)) ->
  (forall st acc others amount desc date notes,
      P (st, acc) -> JsNumber.is_positive amount = true ->
      find (fun c => (cat_name c =? "Others")%string) existing
      = Some others ->
      P (push host st acc amount desc (cat_id others) date notes)) ->
  forall src headers uniq rawData,
    P (process_rows host existing ai src headers uniq rawData).
Proof.
  intros Hbase Hres Hothers.
  assert (Hfold : forall A (f : Session * list Expense -> A
                                -> Session * list Expense) l,
             (forall run a, P run -> P (f run a)) ->
             forall run, P run -> P (fold_left f l run)).
  { intros A f l Hf. induction l as [|a l IH]; simpl; intros run Hrun;
      [exact Hrun | apply IH, Hf, Hrun]. }
  assert (Hlist : forall explicit run row,
             P run -> P (list_row host existing ai explicit run row)).
  { intros explicit [st acc] row Hrun. unfold list_row.
    destruct (list_amount host row) as [amount|] eqn:Ha; [|exact Hrun].
    assert (Hpos : JsNumber.is_positive amount = true).
    { rewrite list_amount_eq in Ha.
      destruct (getVal row amount_aliases) as [c|]; [|discriminate].
      cbv zeta in Ha.
      set (n := JsNumber.parseFloat (cell_toString host c)) in *.
      destruct (_ || JsNumber.isNaN n) eqn:E1; [discriminate|].
      cbn [orb] in Ha.
      destruct (JsNumber.is_zero n) eqn:E2; [discriminate|].
      injection Ha as <-. apply orb_false_iff in E1 as [_ E1].
      destruct n as [|neg|m e]; [discriminate | reflexivity |].
      cbn in E2 |- *. rewrite underflows_abs, E2, andb_true_r.
      apply Z.ltb_lt.
      destruct (Z.eq_dec m 0) as [->|]; [|lia].
      unfold JsNumber.underflows in E2.
      destruct (0 <=? e) eqn:Ee; [discriminate|].
      apply Z.leb_gt in E2. apply Z.leb_gt in Ee.
      pose proof (Z.pow_nonneg 10 (- e)). lia. }
    destruct (if_truthy _) as [raw|].
    - pose proof (Hres st acc (cell_toString host raw) amount) as Hp.
      destruct (resolveCategory host existing ai (cell_toString host raw) st)
        as [result st1].
      now apply Hp.
    - destruct (find _ existing) as [others|] eqn:F.
      + now apply Hothers.
      + pose proof (Hres st acc "Others" amount) as Hp.
        destruct (resolveCategory host existing ai "Others" st)
          as [result st1].
        now apply Hp. }
  assert (Hcell : forall row dateStr run h,
             P run -> P (matrix_cell host existing ai row dateStr run h)).
  { intros row dateStr [st acc] h Hrun. unfold matrix_cell.
    destruct (negb _ && _) eqn:E; [|exact Hrun].
    apply andb_true_iff in E as [_ E].
    pose proof (Hres st acc h (matrix_amount host (row_get row h))) as Hp.
    destruct (resolveCategory host existing ai h st) as [result st1].
    now apply Hp. }
  intros src headers uniq rawData. unfold process_rows. destruct src.
  - apply Hfold; [intros; now apply Hlist | exact Hbase].
  - apply Hfold; [intros; now apply Hlist | exact Hbase].
  - destruct (find is_date_header headers) as [dateKey|]; [|exact Hbase].
    apply Hfold; [|exact Hbase]. intros run row Hrun. unfold matrix_row.
    destruct (row_get row dateKey) as [v|]; [|exact Hrun].
    destruct (negb (cell_truthy v)); [exact Hrun|].
    destruct (_ || _); [exact Hrun|].
    apply Hfold; [intros; now apply Hcell | exact Hrun].
Qed.

End Outcome.

(** ** The result of an import, further *)

Lemma parseFile_run host existing oracle rawData :
  parseFile host existing oracle rawData
  = {| expenses := []; newCategories := [] |} \/
  exists ai src headers uniq,
    parseFile host existing oracle rawData
    = {| expenses :=
           snd (process_rows host existing ai src headers uniq rawData);
         newCategories :=
           JsMap.values
             (newCategoriesCreatedMap
                (fst (process_rows host existing ai src headers uniq
                                   rawData))) |}.
Proof.
  unfold parseFile. destruct rawData as [|first rest]; [now left|]. right.
  destruct (category_source host (keys first) (first :: rest)) as [src set].
  exists (ai_step existing oracle (uniqueRawCategories_of set)), src,
         (keys first), (uniqueRawCategories_of set).
  now destruct (process_rows _ _ _ _ _ _ _).
Qed.

Lemma JsMap_get_None m k : JsMap.get m k = None <-> ~ In k (map fst m).
Proof.
  induction m as [|[k' v] m IH]; simpl; [tauto|].
  destruct (String.eqb_spec k' k) as [->|Hk].
  - split; [discriminate | intros H; elim H; now left].
  - rewrite IH. tauto.
Qed.

(** X2.  Every expense of the result has a positive amount: neither zero,
    negative nor NaN, in List and in Matrix mode. *)
Theorem parseFile_amounts_positive :
  forall (host : Host) (existing : list Category)
         (oracle : list string -> list Category -> option AiMapping)
         (rawData : list ParsedRow),
    Forall (fun e => JsNumber.is_positive (exp_amount e) = true
                     /\ JsNumber.isNaN (exp_amount e) = false)
           (expenses (parseFile host existing oracle rawData)).
Proof.
  intros host existing oracle rawData.
  destruct (parseFile_run host existing oracle rawData)
    as [->|(ai & src & headers & uniq & ->)]; [constructor|].
  cbn [expenses].
  apply (process_rows_ind host existing ai
           (fun run => Forall (fun e =>
                         JsNumber.is_positive (exp_amount e) = true
                         /\ JsNumber.isNaN (exp_amount e) = false)
                       (snd run))).
  - constructor.
  - intros st acc t amount desc date notes Hacc Hpos. cbn [push snd].
    apply Forall_app. split; [exact Hacc|]. repeat constructor; cbn.
    + exact Hpos.
    + now destruct amount.
  - intros st acc others amount desc date notes Hacc Hpos _. cbn [push snd].
    apply Forall_app. split; [exact Hacc|]. repeat constructor; cbn.
    + exact Hpos.
    + now destruct amount.
Qed.

(** X3.  No category is made in vain: every category of [newCategories] is
    the category of an expense of the result. *)
Theorem parseFile_new_categories_used :
  forall (host : Host) (existing : list Category)
         (oracle : list string -> list Category -> option AiMapping)
         (rawData : list ParsedRow),
    let result := parseFile host existing oracle rawData in
    Forall (fun c => exists e, In e (expenses result)
                               /\ exp_categoryId e = cat_id c)
           (newCategories result).
Proof.
  intros host existing oracle rawData result. subst result.
  destruct (parseFile_run host existing oracle rawData)
    as [->|(ai & src & headers & uniq & ->)]; [constructor|].
  cbn [expenses newCategories].
  apply (process_rows_ind host existing ai
           (fun run => Forall (fun c => exists e, In e (snd run)
                                         /\ exp_categoryId e = cat_id c)
                         (JsMap.values
                            (newCategoriesCreatedMap (fst run))))).
  - constructor.
  - intros st acc t amount desc date notes Hacc _.
    cbn [push fst snd take_uuid newCategoriesCreatedMap].
    set (r := resolveCategory host existing ai t st).
    set (e0 := {| exp_id := uuidv4 host (uuidCount (snd r));
                  exp_amount := amount; exp_description := desc;
                  exp_categoryId := res_id (fst r); exp_date := date;
                  exp_notes := notes |}).
    assert (Hold : Forall (fun c => exists e, In e (acc ++ [e0])%list
                                    /\ exp_categoryId e = cat_id c)
                     (JsMap.values (newCategoriesCreatedMap st))).
    { eapply Forall_impl; [|exact Hacc]. cbn [fst snd].
      intros c (e & He & Hc). exists e. split; [|exact Hc].
      apply in_or_app. now left. }
    destruct (resolve_outcome host existing ai t st)
      as [Hsame|(c & _ & Hmap & _ & _ & Hid & _)].
    + fold r in Hsame. rewrite Hsame at 1. exact Hold.
    + fold r in Hmap, Hid. rewrite Hmap. unfold JsMap.values.
      rewrite map_app. apply Forall_app. split; [exact Hold|].
      constructor; [|constructor]. cbn [map snd].
      exists e0. split; [apply in_or_app; right; now left | exact Hid].
  - intros st acc others amount desc date notes Hacc _ _.
    cbn [push fst snd take_uuid newCategoriesCreatedMap].
    eapply Forall_impl; [|exact Hacc]. cbn [fst snd].
    intros c (e & He & Hc). exists e. split; [|exact Hc].
    apply in_or_app. now left.
Qed.

(** The entries of the session map of a run: distinct keys, each entry as
    [entry_ok] says. *)
Lemma process_rows_entries host existing ai src headers uniq rawData :
  let m := newCategoriesCreatedMap
             (fst (process_rows host existing ai src headers uniq rawData)) in
  Forall (entry_ok existing) m /\ NoDup (map fst m).
Proof.
  apply (process_rows_ind host existing ai
           (fun run =>
              Forall (entry_ok existing) (newCategoriesCreatedMap (fst run))
              /\ NoDup (map fst (newCategoriesCreatedMap (fst run))))).
  - split; constructor.
  - intros st acc t amount desc date notes [Hok Hnd] _.
    cbn [push fst snd take_uuid newCategoriesCreatedMap].
    destruct (resolve_outcome host existing ai t st)
      as [Hsame|(c & Hget & Hmap & _ & _ & _ & Hentry)].
    + rewrite Hsame. now split.
    + rewrite Hmap. split.
      * apply Forall_app. split; [exact Hok | now constructor].
      * rewrite map_app. apply NoDup_app; [exact Hnd | | ].
        -- repeat constructor. intros [].
        -- intros k Hk [<-|[]]. now apply JsMap_get_None in Hget.
  - intros st acc others amount desc date notes H _ _. exact H.
Qed.

(** X4.  Every category of [newCategories] is custom, has a name that is
    not empty and a colour of the palette of twelve. *)
Theorem parseFile_new_categories_well_formed :
  forall (host : Host) (existing : list Category)
         (oracle : list string -> list Category -> option AiMapping)
         (rawData : list ParsedRow),
    Forall (fun c => cat_isCustom c = true /\ cat_name c <> ""
                     /\ In (cat_color c) colors)
           (newCategories (parseFile host existing oracle rawData)).
Proof.
  intros host existing oracle rawData.
  destruct (parseFile_run host existing oracle rawData)
    as [->|(ai & src & headers & uniq & ->)]; [constructor|].
  cbn [newCategories].
  destruct (process_rows_entries host existing ai src headers uniq rawData)
    as [Hok _].
  unfold JsMap.values. apply Forall_map.
  eapply Forall_impl; [|exact Hok].
  intros [k c] (_ & Hcustom & Hcolor & Hname). cbn [snd].
  split; [exact Hcustom|]. split; [|exact Hcolor].
  destruct Hname as [[Hk Hn]|[_ ->]]; [|discriminate].
  intros E. rewrite E in Hn. now subst k.
Qed.

Lemma entries_names existing m :
  Forall (entry_ok existing) m -> NoDup (map fst m) ->
  NoDup (map (fun c => toLowerCase (cat_name c))
             (filter (fun c => negb (is_placeholder c)) (JsMap.values m)))
  /\ forall c, In c (filter (fun c => negb (is_placeholder c))
                            (JsMap.values m)) ->
               In (toLowerCase (cat_name c)) (map fst m)
               /\ strict_match existing (toLowerCase (cat_name c)) = None.
Proof.
  intros Hok Hnd.
  assert (Hkey : forall k c, entry_ok existing (k, c) ->
                             is_placeholder c = false ->
                             toLowerCase (cat_name c) = k).
  { intros k c (_ & _ & _ & [[_ H]|[_ H]]) Hp; [exact H|].
    unfold is_placeholder in Hp. rewrite H in Hp. discriminate. }
  assert (Hin : forall c, In c (filter (fun c => negb (is_placeholder c))
                                       (JsMap.values m)) ->
                          In (toLowerCase (cat_name c)) (map fst m)
                          /\ strict_match existing (toLowerCase (cat_name c))
                             = None).
  { intros c Hc. apply filter_In in Hc as [Hc Hp].
    apply negb_true_iff in Hp. unfold JsMap.values in Hc.
    apply in_map_iff in Hc as ([k c'] & <- & Hkc). cbn [snd] in *.
    rewrite Forall_forall in Hok. pose proof (Hok _ Hkc) as He.
    rewrite (Hkey k c' He Hp). split.
    - apply in_map_iff. now exists (k, c').
    - now destruct He. }
  split; [|exact Hin]. clear Hin.
  induction m as [|[k c] m IH]; [constructor|].
  inversion Hok as [|? ? He Hok']; subst.
  inversion Hnd as [|? ? Hk Hnd']; subst.
  cbn [JsMap.values map snd filter].
  destruct (is_placeholder c) eqn:Hp; cbn [negb]; [now apply IH|].
  cbn [map]. constructor; [|now apply IH].
  rewrite (Hkey k c He Hp). intros Hin.
  apply in_map_iff in Hin as (c' & Hc' & Hin).
  apply filter_In in Hin as [Hin Hp']. apply negb_true_iff in Hp'.
  unfold JsMap.values in Hin. apply in_map_iff in Hin as ([k' c''] & <- & Hkc).
  cbn [snd] in *. rewrite Forall_forall in Hok'.
  rewrite (Hkey k' c'' (Hok' _ Hkc) Hp') in Hc'. subst k'.
  apply Hk. apply in_map_iff. now exists (k, c'').
Qed.

(** X5.  The names of the new categories do not repeat: apart from the
    placeholder [Imported Misc], no new category has the name of an
    existing category, compared in lower case, and no two new categories
    have the same name, compared in lower case. *)
Theorem parseFile_new_names_distinct :
  forall (host : Host) (existing : list Category)
         (oracle : list string -> list Category -> option AiMapping)
         (rawData : list ParsedRow),
    let named :=
      filter (fun c => negb (cat_name c =? "Imported Misc")%string)
             (newCategories (parseFile host existing oracle rawData)) in
    NoDup (map (fun c => toLowerCase (cat_name c)) named) /\
    (forall c old, In c named -> In old existing ->
                   toLowerCase (cat_name old) <> toLowerCase (cat_name c)).
Proof.
  intros host existing oracle rawData.
  destruct (parseFile_run host existing oracle rawData)
    as [->|(ai & src & headers & uniq & ->)].
  { cbn. split; [constructor | intros c old []]. }
  cbn [newCategories].
  destruct (process_rows_entries host existing ai src headers uniq rawData)
    as [Hok Hnd].
  destruct (entries_names existing _ Hok Hnd) as [Hnames Hin].
  split; [exact Hnames|].
  intros c old Hc Hold E. destruct (Hin c Hc) as [_ Hstrict].
  unfold strict_match in Hstrict.
  eapply find_none in Hstrict; [|exact Hold].
  cbn in Hstrict. rewrite E, String.eqb_refl in Hstrict. discriminate.
Qed.

Lemma NoDup_insert {A} (x : A) l1 l2 :
  NoDup (l1 ++ l2) -> ~ In x (l1 ++ l2) -> NoDup (l1 ++ x :: l2).
Proof.
  intros Hnd Hx. apply NoDup_Add with (a := x) (l := (l1 ++ l2)%list).
  - apply Add_app.
  - now split.
Qed.

Section Identifiers.

Variable host : Host.
Hypothesis uuid_injective :
  forall i j : nat, uuidv4 host i = uuidv4 host j -> i = j.

Lemma ids_fresh run x :
  ids_ok host run ->
  In x (map exp_id (snd run)
        ++ map cat_id (JsMap.values (newCategoriesCreatedMap (fst run)))) ->
  forall n, (uuidCount (fst run) <= n)%nat -> x <> uuidv4 host n.
Proof.
  intros (He & Hc & _) Hx n Hn E. subst x.
  apply in_app_or in Hx as [Hx|Hx]; apply in_map_iff in Hx as (y & Hy & Hin).
  - destruct (He y Hin) as (k & Hk & Hid). rewrite Hid in Hy.
    apply uuid_injective in Hy. lia.
  - destruct (Hc y Hin) as (k & Hk & Hid). rewrite Hid in Hy.
    apply uuid_injective in Hy. lia.
Qed.

Lemma push_ids_ok st acc amount desc cid date notes :
  ids_ok host (st, acc) ->
  ids_ok host (push host st acc amount desc cid date notes).
Proof.
  intros H. pose proof H as (He & Hc & Hnd). unfold ids_ok, push.
  cbn [fst snd take_uuid uuidCount newCategoriesCreatedMap] in *.
  split; [|split].
  - intros e Hin. apply in_app_or in Hin as [Hin|[<-|[]]].
    + destruct (He e Hin) as (k & Hk & Hid). exists k. split; [lia|exact Hid].
    + exists (uuidCount st). split; [lia|reflexivity].
  - intros c Hin. destruct (Hc c Hin) as (k & Hk & Hid).
    exists k. split; [lia|exact Hid].
  - rewrite map_app. cbn [map exp_id]. rewrite <- app_assoc. cbn [app].
    apply NoDup_insert; [exact Hnd|].
    intros Hin. eapply (ids_fresh (st, acc)); eauto.
Qed.

Lemma resolve_ids_ok existing ai t st acc :
  ids_ok host (st, acc) ->
  ids_ok host (snd (resolveCategory host existing ai t st), acc).
Proof.
  intros H.
  destruct (resolve_outcome host existing ai t st)
    as [->|(c & _ & Hmap & Hn & Hid & _)]; [exact H|].
  pose proof H as (He & Hc & Hnd). unfold ids_ok.
  cbn [fst snd] in *. rewrite Hmap, Hn. unfold JsMap.values.
  rewrite !map_app. cbn [map snd]. split; [|split].
  - intros e Hin. destruct (He e Hin) as (k & Hk & Hk').
    exists k. split; [lia|exact Hk'].
  - intros c' Hin. apply in_app_or in Hin as [Hin|[<-|[]]].
    + destruct (Hc c' Hin) as (k & Hk & Hk'). exists k. split; [lia|exact Hk'].
    + exists (uuidCount st). split; [lia|exact Hid].
  - rewrite app_assoc. apply NoDup_insert; rewrite app_nil_r; [exact Hnd|].
    rewrite Hid. intros Hin. eapply (ids_fresh (st, acc)); eauto.
Qed.

End Identifiers.

(** X6.  When [uuidv4] never gives the same identifier twice, the
    identifiers of the expenses and of the new categories of the result
    are all different from one another. *)
Theorem parseFile_ids_distinct :
  forall (host : Host) (existing : list Category)
         (oracle : list string -> list Category -> option AiMapping)
         (rawData : list ParsedRow),
    (forall i j : nat, uuidv4 host i = uuidv4 host j -> i = j) ->
    let result := parseFile host existing oracle rawData in
    NoDup (map exp_id (expenses result)
           ++ map cat_id (newCategories result)).
Proof.
  intros host existing oracle rawData Hinj result. subst result.
  destruct (parseFile_run host existing oracle rawData)
    as [->|(ai & src & headers & uniq & ->)]; [constructor|].
  cbn [expenses newCategories].
  apply (process_rows_ind host existing ai (ids_ok host)).
  - split; [intros e []|]. split; [intros c []|constructor].
  - intros st acc t amount desc date notes H _.
    apply push_ids_ok; [exact Hinj|]. now apply resolve_ids_ok.
  - intros st acc others amount desc date notes H _ _.
    now apply push_ids_ok.
Qed.

Lemma to_uint_nonnil n : Nat.to_uint n <> Decimal.Nil.
Proof.
  intros H. pose proof (Unsigned.of_to n) as E. rewrite H in E.
  cbn in E. subst n. discriminate.
Qed.

Lemma nat_digits_inj i j :
  JsNumber.nat_digits i = JsNumber.nat_digits j -> i = j.
Proof.
  unfold JsNumber.nat_digits. intros H.
  apply (f_equal NilZero.uint_of_string) in H.
  rewrite !NilZero.usu in H by apply to_uint_nonnil.
  injection H as H. now apply Unsigned.to_uint_inj.
Qed.

Lemma sample_uuid_inj i j :
  uuidv4 Sample.host i = uuidv4 Sample.host j -> i = j.
Proof.
  cbn [uuidv4 Sample.host]. intros H. apply nat_digits_inj.
  now injection H.
Qed.

(** The identifiers of the sample host are numbered, so they differ. *)
Lemma parseFile_ids_distinct_witness :
  let result :=
    parseFile Sample.host Sample.categories Sample.failing_oracle
              Sample.case_sheet in
  NoDup (map exp_id (expenses result) ++ map cat_id (newCategories result)).
Proof.
  apply (parseFile_ids_distinct Sample.host Sample.categories
           Sample.failing_oracle Sample.case_sheet sample_uuid_inj).
Defined.

(** ** The import as a promise: when it is rejected *)

Section PromiseFacts.

Variable host : Host.
Variable existing : list Category.

Lemma Promise_cells_thrown a row dateStr uniq :
  fold_left (Promise.matrix_cell host existing a row dateStr) uniq None
  = None.
Proof. induction uniq as [|h uniq IH]; [reflexivity | exact IH]. Qed.

Lemma Promise_matrix_rows_thrown a dateKey uniq rows :
  fold_left (Promise.matrix_row host existing a dateKey uniq) rows None
  = None.
Proof. induction rows as [|row rows IH]; [reflexivity | exact IH]. Qed.

Lemma Promise_list_rows_thrown a explicit rows :
  fold_left (Promise.list_row host existing a explicit) rows None = None.
Proof. induction rows as [|row rows IH]; [reflexivity | exact IH]. Qed.

(** With an answer that has properties nothing is thrown, and the run is
    the run of [process_rows]. *)
Lemma Promise_list_row_value m explicit run row :
  Promise.list_row host existing (answer_value m) explicit (Some run) row
  = Some (list_row host existing m explicit run row).
Proof.
  destruct run as [st acc]. unfold Promise.list_row, list_row.
  destruct (list_amount host row) as [amount|]; [|reflexivity].
  destruct (if_truthy _) as [raw|].
  - cbn [Promise.resolveCategory].
    now destruct (resolveCategory host existing m _ st).
  - destruct (find _ existing); [reflexivity|].
    cbn [Promise.resolveCategory].
    now destruct (resolveCategory host existing m "Others" st).
Qed.

Lemma Promise_matrix_cells_value m row dateStr uniq :
  forall run,
    fold_left (Promise.matrix_cell host existing (answer_value m) row
                                   dateStr) uniq (Some run)
    = Some (fold_left (matrix_cell host existing m row dateStr) uniq run).
Proof.
  induction uniq as [|h uniq IH]; intros [st acc]; [reflexivity|].
  cbn [fold_left]. rewrite <- IH. f_equal.
  unfold Promise.matrix_cell, matrix_cell.
  destruct (negb _ && _); [|reflexivity].
  cbn [Promise.resolveCategory].
  now destruct (resolveCategory host existing m h st).
Qed.

Lemma Promise_matrix_row_value m dateKey uniq run row :
  Promise.matrix_row host existing (answer_value m) dateKey uniq (Some run)
                     row
  = Some (matrix_row host existing m dateKey uniq run row).
Proof.
  unfold Promise.matrix_row, matrix_row.
  destruct (row_get row dateKey) as [v|]; [|reflexivity].
  destruct (negb (cell_truthy v)); [reflexivity|].
  destruct (includes _ "total" || includes _ "final"); [reflexivity|].
  apply Promise_matrix_cells_value.
Qed.

Lemma Promise_fold_value {A}
    (f : option (Session * list Expense) -> A
         -> option (Session * list Expense))
    (g : Session * list Expense -> A -> Session * list Expense) :
  (forall run x, f (Some run) x = Some (g run x)) ->
  forall l run, fold_left f l (Some run) = Some (fold_left g l run).
Proof.
  intros H l. induction l as [|x l IH]; intros run; [reflexivity|].
  cbn [fold_left]. now rewrite H, IH.
Qed.

Lemma Promise_process_rows_value m src headers uniq rawData :
  Promise.process_rows host existing (answer_value m) src headers uniq
                       rawData
  = Some (process_rows host existing m src headers uniq rawData).
Proof.
  unfold Promise.process_rows, process_rows. destruct src.
  - apply Promise_fold_value. intros. apply Promise_list_row_value.
  - apply Promise_fold_value. intros. apply Promise_list_row_value.
  - destruct (find is_date_header headers); [|reflexivity].
    apply Promise_fold_value. intros. apply Promise_matrix_row_value.
Qed.

(** With the answer [null] a list row throws exactly when it has a token
    to resolve; a row without one does what it does with any answer. *)
Lemma Promise_list_row_null explicit run row :
  Promise.list_row host existing answer_null explicit (Some run) row
  = match list_row_tokens host existing explicit row with
    | [] => Some (list_row host existing no_mapping explicit run row)
    | _ :: _ => None
    end.
Proof.
  destruct run as [st acc].
  unfold Promise.list_row, list_row, list_row_tokens.
  destruct (list_amount host row) as [amount|]; [|reflexivity].
  destruct (if_truthy _) as [raw|]; [reflexivity|].
  destruct (find _ existing); reflexivity.
Qed.

Lemma Promise_list_rows_null explicit rows :
  forall run,
    fold_left (Promise.list_row host existing answer_null explicit) rows
              (Some run)
    = match flat_map (list_row_tokens host existing explicit) rows with
      | [] => Some (fold_left (list_row host existing no_mapping explicit)
                              rows run)
      | _ :: _ => None
      end.
Proof.
  induction rows as [|row rows IH]; intros run; [reflexivity|].
  cbn [fold_left flat_map]. rewrite Promise_list_row_null.
  destruct (list_row_tokens host existing explicit row) as [|t ts].
  - cbn [app]. apply IH.
  - cbn [app]. apply Promise_list_rows_thrown.
Qed.

Lemma Promise_matrix_cells_null row dateStr uniq :
  forall run,
    fold_left (Promise.matrix_cell host existing answer_null row dateStr)
              uniq (Some run)
    = match filter (fun h =>
                      let amount := matrix_amount host (row_get row h) in
                      negb (JsNumber.isNaN amount)
                      && JsNumber.is_positive amount) uniq with
      | [] => Some (fold_left (matrix_cell host existing no_mapping row
                                           dateStr) uniq run)
      | _ :: _ => None
      end.
Proof.
  induction uniq as [|h uniq IH]; intros [st acc]; [reflexivity|].
  cbn [fold_left filter]. unfold Promise.matrix_cell at 2.
  unfold matrix_cell at 2. cbv zeta.
  destruct (negb _ && _).
  - cbn [Promise.resolveCategory]. apply Promise_cells_thrown.
  - apply IH.
Qed.

Lemma Promise_matrix_row_null dateKey uniq run row :
  Promise.matrix_row host existing answer_null dateKey uniq (Some run) row
  = match matrix_row_tokens host dateKey uniq row with
    | [] => Some (matrix_row host existing no_mapping dateKey uniq run row)
    | _ :: _ => None
    end.
Proof.
  unfold Promise.matrix_row, matrix_row, matrix_row_tokens.
  destruct (row_get row dateKey) as [v|]; [|reflexivity].
  destruct (negb (cell_truthy v)); [reflexivity|].
  destruct (includes _ "total" || includes _ "final"); [reflexivity|].
  apply Promise_matrix_cells_null.
Qed.

Lemma Promise_matrix_rows_null dateKey uniq rows :
  forall run,
    fold_left (Promise.matrix_row host existing answer_null dateKey uniq)
              rows (Some run)
    = match flat_map (matrix_row_tokens host dateKey uniq) rows with
      | [] => Some (fold_left (matrix_row host existing no_mapping dateKey
                                          uniq) rows run)
      | _ :: _ => None
      end.
Proof.
  induction rows as [|row rows IH]; intros run; [reflexivity|].
  cbn [fold_left flat_map]. rewrite Promise_matrix_row_null.
  destruct (matrix_row_tokens host dateKey uniq row) as [|t ts].
  - cbn [app]. apply IH.
  - cbn [app]. apply Promise_matrix_rows_thrown.
Qed.

Lemma Promise_process_rows_null src headers uniq rawData :
  Promise.process_rows host existing answer_null src headers uniq rawData
  = match sheet_tokens host existing src headers uniq rawData with
    | [] => Some (process_rows host existing no_mapping src headers uniq
                               rawData)
    | _ :: _ => None
    end.
Proof.
  unfold Promise.process_rows, process_rows, sheet_tokens. destruct src.
  - apply Promise_list_rows_null.
  - apply Promise_list_rows_null.
  - destruct (find is_date_header headers); [|reflexivity].
    apply Promise_matrix_rows_null.
Qed.

(** Whatever the answer, a run that ends is the run of [process_rows]
    with some mapping. *)
Lemma Promise_process_rows_some a src headers uniq rawData run :
  Promise.process_rows host existing a src headers uniq rawData = Some run ->
  exists m, run = process_rows host existing m src headers uniq rawData.
Proof.
  destruct a as [|m].
  - rewrite Promise_process_rows_null.
    destruct (sheet_tokens _ _ _ _ _ _); [|discriminate].
    intros [= <-]. now exists no_mapping.
  - rewrite Promise_process_rows_value. intros [= <-]. now exists m.
Qed.

End PromiseFacts.

(** The promise of an oracle that never answers [null] is resolved, with
    the result of [parseFile]. *)
Lemma parseFile_of_promise host existing oracle rawData :
  Promise.parseFile host existing (with_properties oracle) rawData
  = Some (parseFile host existing oracle rawData).
Proof.
  unfold Promise.parseFile, parseFile.
  destruct rawData as [|first rest]; [reflexivity|].
  destruct (category_source host (keys first) (first :: rest)) as [src set].
  assert (E : Promise.ai_step existing (with_properties oracle)
                              (uniqueRawCategories_of set)
              = answer_value (ai_step existing oracle
                                      (uniqueRawCategories_of set))).
  { unfold Promise.ai_step, ai_step, with_properties.
    destruct (0 <? _)%nat; [|reflexivity].
    now destruct (oracle _ existing). }
  rewrite E, Promise_process_rows_value.
  now destruct (process_rows _ _ _ _ _ _ _).
Qed.

(** ** Rows in order *)

Lemma list_row_fields_step host existing ai explicit st acc row :
  map expense_fields (snd (list_row host existing ai explicit (st, acc) row))
  = (map expense_fields acc ++ list_row_fields host row)%list.
Proof.
  unfold list_row, list_row_fields.
  destruct (list_amount host row) as [amount|];
    [|cbn [snd]; now rewrite app_nil_r].
  destruct (if_truthy _) as [raw|].
  - destruct (resolveCategory host existing ai (cell_toString host raw) st)
      as [result st1].
    cbn [push snd]. now rewrite map_app.
  - destruct (find _ existing) as [others|].
    + cbn [push snd]. now rewrite map_app.
    + destruct (resolveCategory host existing ai "Others" st)
        as [result st1].
      cbn [push snd]. now rewrite map_app.
Qed.

Lemma list_rows_fields host existing ai explicit rows :
  forall run,
    map expense_fields
        (snd (fold_left (list_row host existing ai explicit) rows run))
    = (map expense_fields (snd run)
       ++ flat_map (list_row_fields host) rows)%list.
Proof.
  induction rows as [|row rows IH]; intros [st acc];
    cbn [fold_left flat_map snd].
  - now rewrite app_nil_r.
  - rewrite IH, list_row_fields_step. now rewrite <- app_assoc.
Qed.

Lemma process_rows_list_fields host existing m src headers uniq rawData :
  src <> matrix ->
  map expense_fields
      (snd (process_rows host existing m src headers uniq rawData))
  = flat_map (list_row_fields host) rawData.
Proof.
  intros Hsrc. unfold process_rows. destruct src; [| |now elim Hsrc].
  - exact (list_rows_fields host existing m true rawData (new_session, [])).
  - exact (list_rows_fields host existing m false rawData (new_session, [])).
Qed.

(** The promise of [parseFile] on a sheet with rows, by the run over
    them. *)
Lemma Promise_parseFile_rows host existing oracle first rest :
  let rawData := first :: rest in
  let source := category_source host (keys first) rawData in
  let uniq := uniqueRawCategories_of (snd source) in
  Promise.parseFile host existing oracle rawData
  = match Promise.process_rows host existing
            (Promise.ai_step existing oracle uniq) (fst source)
            (keys first) uniq rawData with
    | Some run =>
        Some {| expenses := snd run;
                newCategories :=
                  JsMap.values (newCategoriesCreatedMap (fst run)) |}
    | None => None
    end.
Proof.
  cbv zeta. unfold Promise.parseFile.
  destruct (category_source host (keys first) (first :: rest))
    as [src set]. cbn [fst snd].
  destruct (Promise.process_rows _ _ _ _ _ _ _) as [[st acc]|]; reflexivity.
Qed.

(** The oracle's answer is [null] only when the oracle gave it. *)
Lemma Promise_ai_step_null existing oracle uniq :
  Promise.ai_step existing oracle uniq = answer_null <->
  uniq <> [] /\ oracle (firstn 1000 uniq) existing = Some answer_null.
Proof.
  unfold Promise.ai_step. destruct uniq as [|t uniq].
  - cbn. split; [discriminate | now intros [H _]].
  - cbn [List.length Nat.ltb Nat.leb].
    destruct (oracle _ existing) as [[|m]|]; split;
      try discriminate; try (intros [_ H]; discriminate).
    + split; [discriminate | reflexivity].
    + reflexivity.
Qed.

(** X7.  In List mode the expenses follow the rows.  The import returns a
    result unless the oracle answered [null]; and whenever it returns one,
    each row with a usable amount has given one expense, in the order of
    the sheet, with the amount, the date and the notes of that row, and
    the other rows have given none, whatever the answer of the oracle and
    whatever the categories. *)
Theorem list_mode_expenses_follow_rows :
  forall (host : Host) (existing : list Category)
         (oracle : list string -> list Category -> option OracleAnswer)
         (rawData : list ParsedRow),
    isMatrixMode (keys (hd [] rawData)) = false ->
    (forall result,
        Promise.parseFile host existing oracle rawData = Some result ->
        map (fun e => (exp_amount e, exp_date e, exp_notes e))
            (expenses result)
        = flat_map (list_row_fields host) rawData)
    /\ (oracle (oracle_batch host rawData) existing <> Some answer_null ->
        exists result,
          Promise.parseFile host existing oracle rawData = Some result).
Proof.
  intros host existing oracle rawData Hlist.
  destruct rawData as [|first rest].
  { split; [intros result [= <-]; reflexivity | intros _; now eexists]. }
  cbn [hd] in Hlist. rewrite Promise_parseFile_rows.
  unfold oracle_batch. cbn [hd].
  set (source := category_source host (keys first) (first :: rest)).
  set (uniq := uniqueRawCategories_of (snd source)).
  assert (Hsrc : fst source <> matrix).
  { subst source. unfold category_source. rewrite Hlist.
    destruct (shouldUseDescription host (first :: rest)); discriminate. }
  split.
  - intros result H.
    destruct (Promise.process_rows _ _ _ _ _ _ _) as [run|] eqn:Hrun;
      [|discriminate].
    injection H as <-. cbn [expenses].
    apply Promise_process_rows_some in Hrun as [m ->].
    now apply process_rows_list_fields.
  - intros Hanswer.
    destruct (Promise.ai_step existing oracle uniq) as [|m] eqn:Hstep.
    + apply Promise_ai_step_null in Hstep as [_ Hnull]. now elim Hanswer.
    + rewrite Promise_process_rows_value. now eexists.
Qed.

(** The sample sheet of two rows, the oracle failing: two expenses. *)
Lemma list_mode_expenses_follow_rows_witness :
  exists result,
    Promise.parseFile Sample.host Sample.categories (fun _ _ => None)
                      Sample.case_sheet = Some result
    /\ map (fun e => (exp_amount e, exp_date e, exp_notes e))
           (expenses result)
       = [(JFin 120 0, "2024-03-05", CStr "");
          (JFin 340 0, "2024-03-06", CStr "")].
Proof.
  destruct (list_mode_expenses_follow_rows Sample.host Sample.categories
              (fun _ _ => None) Sample.case_sheet eq_refl)
    as [Hrows Hresult].
  destruct (Hresult ltac:(discriminate)) as [result Hres].
  exists result. split; [exact Hres|].
  rewrite (Hrows result Hres). vm_compute. reflexivity.
Defined.

(** ** Tokens *)

Lemma trimStart_lower s : trimStart (toLowerCase s) = toLowerCase (trimStart s).
Proof.
  unfold toLowerCase. induction s as [|c r IH]; [reflexivity|].
  cbn [map_chars trimStart]. rewrite is_space_lower_char.
  destruct (is_space c); [exact IH | reflexivity].
Qed.

Lemma trimEnd_lower s : trimEnd (toLowerCase s) = toLowerCase (trimEnd s).
Proof.
  unfold toLowerCase. induction s as [|c r IH]; [reflexivity|].
  cbn [map_chars trimEnd]. rewrite IH, is_space_lower_char.
  destruct (trimEnd r); cbn [map_chars]; [|reflexivity].
  now destruct (is_space c).
Qed.

Lemma trim_lower s : trim (toLowerCase s) = toLowerCase (trim s).
Proof. unfold trim. now rewrite trimStart_lower, trimEnd_lower. Qed.

Lemma matrix_headers_spec dateKey headers :
  NoDup (matrix_headers dateKey headers) /\
  forall t, In t (matrix_headers dateKey headers) ->
            exists h, In h headers /\ t = trim h /\
                      JsString.truthy (trim (toLowerCase h)) = true /\
                      mem (trim (toLowerCase h)) (ignoredHeaders dateKey)
                      = false /\
                      includes (trim (toLowerCase h)) "total" = false.
Proof.
  unfold matrix_headers.
  set (f := fun set h =>
              let lowerH := trim (toLowerCase h) in
              if JsString.truthy lowerH
                 && negb (mem lowerH (ignoredHeaders dateKey))
                 && negb (includes lowerH "total")
              then set_add (trim h) set else set).
  enough (G : forall hs acc,
             NoDup acc ->
             (forall t, In t acc -> exists h, In h headers /\ t = trim h /\
                  JsString.truthy (trim (toLowerCase h)) = true /\
                  mem (trim (toLowerCase h)) (ignoredHeaders dateKey) = false /\
                  includes (trim (toLowerCase h)) "total" = false) ->
             (forall h, In h hs -> In h headers) ->
             NoDup (fold_left f hs acc) /\
             forall t, In t (fold_left f hs acc) ->
                  exists h, In h headers /\ t = trim h /\
                  JsString.truthy (trim (toLowerCase h)) = true /\
                  mem (trim (toLowerCase h)) (ignoredHeaders dateKey) = false /\
                  includes (trim (toLowerCase h)) "total" = false).
  { apply G; [constructor | intros t [] | auto]. }
  induction hs as [|h hs IH]; intros acc Hnd Hacc Hsub; [now split|].
  cbn [fold_left]. apply IH; [| |intros; apply Hsub; now right].
  - unfold f. cbv zeta. destruct (_ && _); [now apply set_add_NoDup|exact Hnd].
  - intros t. unfold f. cbv zeta.
    destruct (JsString.truthy (trim (toLowerCase h))
              && negb (mem (trim (toLowerCase h)) (ignoredHeaders dateKey))
              && negb (includes (trim (toLowerCase h)) "total")) eqn:E;
      [|apply Hacc].
    intros Ht. apply set_add_in in Ht as [->|Ht]; [|now apply Hacc].
    apply andb_true_iff in E as [E E3]. apply andb_true_iff in E as [E1 E2].
    apply negb_true_iff in E2, E3.
    exists h. split; [apply Hsub; now left|]. auto.
Qed.

(** X8.  In Matrix mode no token is, in lower case, one of [total],
    [final], [subtotal], [sum], [notes], [comments], [description] or the
    date header, and none contains [total]; every token is the trimmed
    name of a header and has more than one character. *)
Theorem matrix_tokens_exclude_summaries :
  forall (host : Host) (headers : list string) (rawData : list ParsedRow),
    isMatrixMode headers = true ->
    exists dateKey,
      find is_date_header headers = Some dateKey /\
      forall t,
        In t (uniqueRawCategories_of
                (snd (category_source host headers rawData))) ->
        (exists h, In h headers /\ t = trim h) /\
        ~ In (toLowerCase t)
             ["total"; "final"; "subtotal"; "sum"; "notes"; "comments";
              "description"] /\
        toLowerCase t <> toLowerCase dateKey /\
        includes (toLowerCase t) "total" = false /\
        (1 < String.length t)%nat.
Proof.
  intros host headers rawData Hm. unfold category_source. rewrite Hm.
  unfold isMatrixMode in Hm.
  destruct (find is_date_header headers) as [dateKey|]; [|discriminate].
  exists dateKey. split; [reflexivity|]. cbn [snd].
  intros t Ht. unfold uniqueRawCategories_of in Ht.
  apply filter_In in Ht as [Ht Hlen]. apply andb_true_iff in Hlen as [_ Hlen].
  apply Nat.ltb_lt in Hlen.
  destruct (matrix_headers_spec dateKey headers) as [_ Hspec].
  destruct (Hspec t Ht) as (h & Hh & -> & _ & Hign & Htot).
  rewrite trim_lower in Hign, Htot.
  split; [now exists h|]. split; [|split; [|split]]; try assumption.
  - intros Hin. apply mem_true_iff in Hin.
    unfold ignoredHeaders in Hign. unfold mem in *. cbn [existsb] in *.
    rewrite !orb_false_iff in Hign. rewrite !orb_true_iff in Hin.
    intuition congruence.
  - intros E. unfold ignoredHeaders, mem in Hign. cbn [existsb] in Hign.
    rewrite !orb_false_iff in Hign. rewrite E, String.eqb_refl in Hign.
    intuition discriminate.
Qed.

(** The matrix sheet of the samples: [Food] and [Rent] are tokens,
    [Total] and [Date] are not. *)
Lemma matrix_tokens_exclude_summaries_witness :
  exists dateKey,
    find is_date_header (keys (hd [] Sample.matrix_sheet)) = Some dateKey /\
    forall t,
      In t (uniqueRawCategories_of
              (snd (category_source Sample.host
                      (keys (hd [] Sample.matrix_sheet))
                      Sample.matrix_sheet))) ->
      (exists h, In h (keys (hd [] Sample.matrix_sheet)) /\ t = trim h) /\
      ~ In (toLowerCase t)
           ["total"; "final"; "subtotal"; "sum"; "notes"; "comments";
            "description"] /\
      toLowerCase t <> toLowerCase dateKey /\
      includes (toLowerCase t) "total" = false /\
      (1 < String.length t)%nat.
Proof.
  apply (matrix_tokens_exclude_summaries Sample.host
           (keys (hd [] Sample.matrix_sheet)) Sample.matrix_sheet).
  reflexivity.
Defined.

Lemma NoDup_firstn {A} n (l : list A) : NoDup l -> NoDup (firstn n l).
Proof.
  intros H. rewrite <- (firstn_skipn n l) in H.
  now apply NoDup_app_remove_r in H.
Qed.

Lemma category_source_NoDup host headers rawData :
  NoDup (snd (category_source host headers rawData)).
Proof.
  unfold category_source. destruct (isMatrixMode headers).
  - destruct (find is_date_header headers); cbn [snd]; [|constructor].
    apply matrix_headers_spec.
  - destruct (shouldUseDescription host rawData); cbn [snd];
      apply column_values_NoDup.
Qed.

(** X9.  The oracle is asked for at most 1000 tokens, all different,
    trimmed and longer than one character; the import depends on the
    oracle through its answer for these tokens alone, and does not depend
    on it when there is no token. *)
Theorem oracle_asked_once_bounded :
  forall (host : Host) (existing : list Category)
         (rawData : list ParsedRow),
    let batch := oracle_batch host rawData in
    (List.length batch <= 1000)%nat /\
    NoDup batch /\
    (forall t, In t batch -> trim t = t /\ (1 < String.length t)%nat) /\
    (forall oracle oracle',
        batch = [] \/ oracle batch existing = oracle' batch existing ->
        parseFile host existing oracle rawData
        = parseFile host existing oracle' rawData).
Proof.
  intros host existing rawData batch. subst batch. unfold oracle_batch.
  split; [apply firstn_le_length|]. split; [|split].
  - apply NoDup_firstn. unfold uniqueRawCategories_of.
    apply NoDup_filter, category_source_NoDup.
  - intros t Ht.
    assert (Hin : In t (uniqueRawCategories_of
                          (snd (category_source host (keys (hd [] rawData))
                                                rawData)))).
    { rewrite <- (firstn_skipn 1000). apply in_or_app. now left. }
    split; [eapply tokens_trimmed; eauto|].
    unfold uniqueRawCategories_of in Hin. apply filter_In in Hin as [_ Hin].
    apply andb_true_iff in Hin as [_ Hin]. now apply Nat.ltb_lt in Hin.
  - intros oracle oracle' H. unfold parseFile.
    destruct rawData as [|first rest]; [reflexivity|]. cbn [hd] in H.
    destruct (category_source host (keys first) (first :: rest))
      as [src set]. cbn [snd] in H.
    assert (E : ai_step existing oracle (uniqueRawCategories_of set)
                = ai_step existing oracle' (uniqueRawCategories_of set)).
    { unfold ai_step.
      destruct (uniqueRawCategories_of set) as [|t l] eqn:El; [reflexivity|].
      cbn [List.length Nat.ltb Nat.leb].
      destruct H as [H|H]; [discriminate | now rewrite H]. }
    now rewrite E.
Qed.

(** Two oracles that agree on the tokens of the sample sheet. *)
Lemma oracle_asked_once_bounded_witness :
  parseFile Sample.host Sample.categories
            (Sample.oracle_of [("Meals", "c2")]) Sample.case_sheet
  = parseFile Sample.host Sample.categories
              (fun batch _ =>
                 if (1 <? List.length batch)%nat
                 then Some (Sample.mapping_of [("Meals", "c2")])
                 else None)
              Sample.case_sheet.
Proof.
  apply (oracle_asked_once_bounded Sample.host Sample.categories
           Sample.case_sheet).
  right. reflexivity.
Defined.

(** ** The callers *)

Lemma find_by_id_app l1 l2 id :
  find_by_id (l1 ++ l2) id
  = match find_by_id l1 id with
    | Some c => Some c
    | None => find_by_id l2 id
    end.
Proof.
  unfold find_by_id. induction l1 as [|c l1 IH]; [reflexivity|].
  cbn [app find]. now destruct (cat_id c =? id)%string.
Qed.

Lemma find_by_id_In l id c :
  In c l -> cat_id c = id -> find_by_id l id <> None.
Proof.
  intros Hin Hid H. unfold find_by_id in H.
  eapply find_none in H; [|exact Hin]. cbn in H.
  rewrite Hid, String.eqb_refl in H. discriminate.
Qed.

Lemma find_by_id_Some l id c :
  find_by_id l id = Some c -> In c l /\ cat_id c = id.
Proof.
  intros H. apply find_some in H as [Hin Hid].
  now apply String.eqb_eq in Hid.
Qed.

(** X10.  When every expense of the application refers to one of its
    categories, so does every expense after an import is confirmed:
    [addExpenses] puts the new categories after the old ones and the
    imported expenses before the old ones.  In the preview every imported
    expense is shown with the name of a category, existing or new, that
    has its [categoryId]. *)
Theorem import_keeps_references :
  forall (host : Host)
         (oracle : list string -> list Category -> option AiMapping)
         (rawData : list ParsedRow) (s : App.State),
    App.references_ok s ->
    let result := parseFile host (App.st_categories s) oracle rawData in
    App.references_ok
      (App.addExpenses (expenses result) (newCategories result) s)
    /\
    Forall (fun e =>
              exists c,
                (In c (App.st_categories s) \/ In c (newCategories result))
                /\ cat_id c = exp_categoryId e
                /\ UploadModal.getCategoryName (App.st_categories s)
                     (newCategories result) (exp_categoryId e)
                   = cat_name c)
           (expenses result).
Proof.
  intros host oracle rawData s Hs result.
  assert (Hknown : Forall (fun e => known (App.st_categories s)
                                          (newCategories result)
                                          (exp_categoryId e))
                          (expenses result)).
  { subst result.
    destruct (parseFile_run host (App.st_categories s) oracle rawData)
      as [->|(ai & src & headers & uniq & ->)]; [constructor|].
    apply (process_rows_ok host (App.st_categories s) ai). }
  split.
  - unfold App.references_ok, App.addExpenses.
    cbn [App.st_expenses App.st_categories].
    apply Forall_app. split.
    + eapply Forall_impl; [|exact Hknown].
      intros e [(c & Hin & Hid)|(c & Hin & Hid)];
        apply (find_by_id_In _ _ c); auto; apply in_or_app; auto.
    + eapply Forall_impl; [|exact Hs]. intros e He. cbv beta in He.
      rewrite find_by_id_app.
      destruct (find_by_id (App.st_categories s) (exp_categoryId e));
        [discriminate | now elim He].
  - eapply Forall_impl; [|exact Hknown].
    intros e He. unfold UploadModal.getCategoryName.
    destruct (find_by_id (App.st_categories s) (exp_categoryId e))
      as [c|] eqn:F1.
    + apply find_by_id_Some in F1 as [Hin Hid]. exists c. auto.
    + destruct (find_by_id (newCategories result) (exp_categoryId e))
        as [c|] eqn:F2.
      * apply find_by_id_Some in F2 as [Hin Hid]. exists c. auto.
      * exfalso. destruct He as [(c & Hin & Hid)|(c & Hin & Hid)].
        -- now apply (find_by_id_In _ _ c Hin Hid).
        -- now apply (find_by_id_In _ _ c Hin Hid).
Qed.

Lemma sample_state_ok : App.references_ok sample_state.
Proof. repeat constructor; discriminate. Qed.

(** The sample state after the import of the sheet of two rows. *)
Lemma import_keeps_references_witness :
  let result :=
    parseFile Sample.host Sample.categories Sample.failing_oracle
              Sample.case_sheet in
  App.references_ok
    (App.addExpenses (expenses result) (newCategories result) sample_state).
Proof.
  apply (import_keeps_references Sample.host Sample.failing_oracle
           Sample.case_sheet sample_state sample_state_ok).
Defined.

Lemma find_by_id_filter cats id id' :
  id' <> id -> find_by_id cats id' <> None ->
  find_by_id (filter (fun c => negb (cat_id c =? id)%string) cats) id'
  <> None.
Proof.
  intros Hne H.
  destruct (find_by_id cats id') as [c|] eqn:F; [|contradiction].
  apply find_by_id_Some in F as [Hin Hid].
  apply (find_by_id_In _ _ c); [|exact Hid].
  apply filter_In. split; [exact Hin|].
  apply negb_true_iff, String.eqb_neq. congruence.
Qed.

(** X11.  [deleteCategory] removes the categories with the given [id] and
    no expense: the expenses of that category go to the category named
    [Others], the others stay as they are.  When [Others] is there and is
    not the category deleted, no expense refers to the deleted [id]
    afterwards, and every expense still refers to a category if it did
    before. *)
Theorem deleteCategory_moves_expenses :
  forall (id : string) (s : App.State) (others : Category),
    find (fun c => (cat_name c =? "Others")%string) (App.st_categories s)
    = Some others ->
    cat_id others <> "" ->
    cat_id others <> id ->
    let s' := App.deleteCategory id s in
    map (fun e => (exp_id e, exp_amount e, exp_description e, exp_date e,
                   exp_notes e)) (App.st_expenses s')
    = map (fun e => (exp_id e, exp_amount e, exp_description e, exp_date e,
                     exp_notes e)) (App.st_expenses s)
    /\ map exp_categoryId (App.st_expenses s')
       = map (fun e => if (exp_categoryId e =? id)%string
                       then cat_id others else exp_categoryId e)
             (App.st_expenses s)
    /\ Forall (fun e => exp_categoryId e <> id) (App.st_expenses s')
    /\ (forall c, In c (App.st_categories s') <->
                  In c (App.st_categories s) /\ cat_id c <> id)
    /\ (App.references_ok s -> App.references_ok s').
Proof.
  intros id s others Hfind Hne Hid s'. subst s'.
  unfold App.deleteCategory, App.references_ok.
  cbn [App.st_expenses App.st_categories].
  assert (Ho : App.otherCatId (App.st_categories s) = cat_id others).
  { unfold App.otherCatId. rewrite Hfind.
    apply truthy_true in Hne. now rewrite Hne. }
  rewrite Ho. rewrite !map_map.
  split; [|split; [|split; [|split]]].
  - apply map_ext. intros e. now destruct (exp_categoryId e =? id)%string.
  - apply map_ext. intros e. now destruct (exp_categoryId e =? id)%string.
  - apply Forall_map, Forall_forall. intros e _.
    destruct (String.eqb_spec (exp_categoryId e) id); [exact Hid | assumption].
  - intros c. rewrite filter_In, negb_true_iff, String.eqb_neq. tauto.
  - intros Hs. apply Forall_map. eapply Forall_impl; [|exact Hs].
    intros e He. apply find_some in Hfind as [Hin _].
    destruct (String.eqb_spec (exp_categoryId e) id) as [E|E];
      cbn [App.with_categoryId exp_categoryId].
    + apply find_by_id_filter; [exact Hid|].
      now apply (find_by_id_In _ _ others).
    + now apply find_by_id_filter.
Qed.

(** The sample state without the category [Food]: the pizza goes to
    [Others]. *)
Lemma deleteCategory_moves_expenses_witness :
  map exp_categoryId (App.st_expenses (App.deleteCategory "c1" sample_state))
  = ["c3"; "c2"].
Proof.
  rewrite (proj1 (proj2 (deleteCategory_moves_expenses "c1" sample_state
                           (Sample.category "c3" "Others") eq_refl
                           ltac:(discriminate) ltac:(discriminate)))).
  reflexivity.
Defined.

(** ** Importing a sheet again *)

Section Again.

Variable host : Host.
Variable existing : list Category.

Lemma resolve_covers t st :
  covered existing (snd (resolveCategory host existing no_mapping t st)) t.
Proof.
  unfold covered, resolveCategory, token_key, strict_match.
  rewrite ai_choice_no_mapping.
  destruct (JsMap.get (newCategoriesCreatedMap st) (toLowerCase (trim t)))
    eqn:Hget; cbn [snd].
  - right. now rewrite Hget.
  - destruct (find _ existing); cbn [snd newCategoriesCreatedMap].
    + left. discriminate.
    + right. now rewrite JsMap_get_set_same.
Qed.

Lemma covered_later st st' t :
  later host existing no_mapping st st' ->
  covered existing st t -> covered existing st' t.
Proof.
  intros Hl [H|H]; [now left|]. right.
  destruct (JsMap.get (newCategoriesCreatedMap st) (token_key t))
    as [c|] eqn:E; [|contradiction].
  now rewrite (later_keeps_entry host existing no_mapping st st' _ c Hl E).
Qed.

Lemma covered_push st acc amount desc cid date notes t :
  covered existing st t ->
  covered existing (fst (push host st acc amount desc cid date notes)) t.
Proof. trivial. Qed.

Lemma list_row_covers explicit st acc row t :
  In t (list_row_tokens host existing explicit row) ->
  covered existing
    (fst (list_row host existing no_mapping explicit (st, acc) row)) t.
Proof.
  unfold list_row_tokens, list_row.
  destruct (list_amount host row) as [amount|]; [|intros []].
  destruct (if_truthy _) as [raw|].
  - intros [<-|[]].
    pose proof (resolve_covers (cell_toString host raw) st) as H.
    destruct (resolveCategory host existing no_mapping
                              (cell_toString host raw) st) as [result st1].
    now apply covered_push.
  - destruct (find _ existing); [intros []|]. intros [<-|[]].
    pose proof (resolve_covers "Others" st) as H.
    destruct (resolveCategory host existing no_mapping "Others" st)
      as [result st1].
    now apply covered_push.
Qed.

Lemma matrix_cells_cover row dateStr uniq :
  forall run t,
    In t (filter (fun h =>
                    let amount := matrix_amount host (row_get row h) in
                    negb (JsNumber.isNaN amount)
                    && JsNumber.is_positive amount) uniq) ->
    covered existing
      (fst (fold_left (matrix_cell host existing no_mapping row dateStr)
                      uniq run)) t.
Proof.
  induction uniq as [|h uniq IH]; intros [st acc] t; [intros []|].
  cbn [filter fold_left]. cbv zeta.
  destruct (negb (JsNumber.isNaN (matrix_amount host (row_get row h)))
            && JsNumber.is_positive (matrix_amount host (row_get row h)))
    eqn:E.
  - intros [<-|Ht]; [|now apply IH].
    eapply covered_later.
    + apply (fold_left_later host existing no_mapping
               (matrix_cell host existing no_mapping row dateStr) uniq).
      intros. apply matrix_cell_later.
    + unfold matrix_cell. rewrite E.
      pose proof (resolve_covers h st) as H.
      destruct (resolveCategory host existing no_mapping h st)
        as [result st1].
      now apply covered_push.
  - apply IH.
Qed.

Lemma matrix_row_covers dateKey uniq run row t :
  In t (matrix_row_tokens host dateKey uniq row) ->
  covered existing
    (fst (matrix_row host existing no_mapping dateKey uniq run row)) t.
Proof.
  unfold matrix_row_tokens, matrix_row.
  destruct (row_get row dateKey) as [v|]; [|intros []].
  destruct (negb (cell_truthy v)); [intros []|].
  destruct (_ || _); [intros []|].
  apply matrix_cells_cover.
Qed.

Lemma rows_cover {A} (f : Session * list Expense -> A
                          -> Session * list Expense)
    (tokens : A -> list string) :
  (forall run a t, In t (tokens a) -> covered existing (fst (f run a)) t) ->
  (forall run a, later host existing no_mapping (fst run) (fst (f run a))) ->
  forall l run t,
    In t (flat_map tokens l) -> covered existing (fst (fold_left f l run)) t.
Proof.
  intros Hcov Hlater. induction l as [|a l IH]; intros run t; [intros []|].
  cbn [flat_map fold_left]. intros Ht.
  apply in_app_or in Ht as [Ht|Ht]; [|now apply IH].
  eapply covered_later;
    [apply (fold_left_later host existing no_mapping f l Hlater)|].
  now apply Hcov.
Qed.

(** Every token resolved in a run without an answer of the oracle is
    covered at the end of the run. *)
Lemma process_rows_covers src headers uniq rawData t :
  In t (sheet_tokens host existing src headers uniq rawData) ->
  covered existing
    (fst (process_rows host existing no_mapping src headers uniq rawData))
    t.
Proof.
  unfold sheet_tokens, process_rows. destruct src.
  - apply rows_cover.
    + intros [st acc] row t'. apply list_row_covers.
    + intros. apply list_row_later.
  - apply rows_cover.
    + intros [st acc] row t'. apply list_row_covers.
    + intros. apply list_row_later.
  - destruct (find is_date_header headers) as [dateKey|]; [|intros []].
    apply rows_cover.
    + intros. now apply matrix_row_covers.
    + intros. apply matrix_row_later.
Qed.

Variable ai : AiMapping.

Lemma resolve_blank_only t st acc amount desc date notes :
  settled existing t -> blank_only (st, acc) ->
  blank_only (push host (snd (resolveCategory host existing ai t st)) acc
                   amount desc
                   (res_id (fst (resolveCategory host existing ai t st)))
                   date notes).
Proof.
  intros Ht Hst. unfold blank_only, push in *.
  cbn [fst take_uuid newCategoriesCreatedMap] in *.
  destruct (resolve_outcome host existing ai t st)
    as [->|(c & _ & -> & _ & _ & _ & Hentry)]; [exact Hst|].
  apply Forall_app. split; [exact Hst|]. constructor; [|constructor].
  cbn [fst]. destruct Hentry as [Hstrict _].
  destruct Ht as [Ht|Ht]; [exact Ht | contradiction].
Qed.

Lemma list_row_blank_only explicit run row :
  (forall t, In t (list_row_tokens host existing explicit row) ->
             settled existing t) ->
  blank_only run ->
  blank_only (list_row host existing ai explicit run row).
Proof.
  destruct run as [st acc]. unfold list_row_tokens, list_row.
  destruct (list_amount host row) as [amount|]; [|trivial].
  destruct (if_truthy _) as [raw|].
  - intros Ht Hst.
    pose proof (resolve_blank_only (cell_toString host raw) st acc amount)
      as H.
    destruct (resolveCategory host existing ai (cell_toString host raw) st)
      as [result st1].
    apply H; [apply Ht; now left | exact Hst].
  - destruct (find _ existing); [trivial|]. intros Ht Hst.
    pose proof (resolve_blank_only "Others" st acc amount) as H.
    destruct (resolveCategory host existing ai "Others" st)
      as [result st1].
    apply H; [apply Ht; now left | exact Hst].
Qed.

Lemma matrix_cells_blank_only row dateStr uniq :
  forall run,
    (forall t,
        In t (filter (fun h =>
                        let amount := matrix_amount host (row_get row h) in
                        negb (JsNumber.isNaN amount)
                        && JsNumber.is_positive amount) uniq) ->
        settled existing t) ->
    blank_only run ->
    blank_only (fold_left (matrix_cell host existing ai row dateStr) uniq run).
Proof.
  induction uniq as [|h uniq IH]; intros [st acc]; [trivial|].
  cbn [filter fold_left]. cbv zeta. intros Ht Hst. unfold matrix_cell at 2.
  destruct (negb (JsNumber.isNaN (matrix_amount host (row_get row h)))
            && JsNumber.is_positive (matrix_amount host (row_get row h)))
    eqn:E.
  - apply IH; [intros t Hin; apply Ht; now right|].
    pose proof (resolve_blank_only h st acc
                  (matrix_amount host (row_get row h))) as H.
    destruct (resolveCategory host existing ai h st) as [result st1].
    apply H; [apply Ht; now left | exact Hst].
  - now apply IH.
Qed.

Lemma rows_blank_only {A} (f : Session * list Expense -> A
                               -> Session * list Expense)
    (tokens : A -> list string) :
  (forall run a, (forall t, In t (tokens a) -> settled existing t) ->
                 blank_only run -> blank_only (f run a)) ->
  forall l run,
    (forall t, In t (flat_map tokens l) -> settled existing t) ->
    blank_only run -> blank_only (fold_left f l run).
Proof.
  intros Hf. induction l as [|a l IH]; intros run Ht Hrun; [exact Hrun|].
  cbn [flat_map fold_left] in *. apply IH.
  - intros t Hin. apply Ht, in_or_app. now right.
  - apply Hf; [|exact Hrun]. intros t Hin. apply Ht, in_or_app. now left.
Qed.

(** When every token of the sheet is blank or names an existing
    category, the run puts nothing but the entry of the blank token into
    the session map. *)
Lemma process_rows_blank_only src headers uniq rawData :
  (forall t, In t (sheet_tokens host existing src headers uniq rawData) ->
             settled existing t) ->
  blank_only (process_rows host existing ai src headers uniq rawData).
Proof.
  assert (H0 : blank_only (new_session, [])) by constructor.
  unfold sheet_tokens, process_rows. destruct src.
  - intros Ht. apply (rows_blank_only _ (list_row_tokens host existing true));
      [intros; now apply list_row_blank_only | exact Ht | exact H0].
  - intros Ht. apply (rows_blank_only _ (list_row_tokens host existing false));
      [intros; now apply list_row_blank_only | exact Ht | exact H0].
  - destruct (find is_date_header headers) as [dateKey|]; [|trivial].
    intros Ht.
    apply (rows_blank_only _ (matrix_row_tokens host dateKey uniq));
      [|exact Ht | exact H0].
    intros run row Hrow Hrun. unfold matrix_row.
    unfold matrix_row_tokens in Hrow.
    destruct (row_get row dateKey) as [v|]; [|exact Hrun].
    destruct (negb (cell_truthy v)); [exact Hrun|].
    destruct (_ || _); [exact Hrun|].
    now apply matrix_cells_blank_only.
Qed.

End Again.

Lemma find_app_None {A} (f : A -> bool) l1 l2 :
  find f (l1 ++ l2) = None -> find f l1 = None.
Proof.
  induction l1 as [|a l1 IH]; [reflexivity|]. cbn [app find].
  now destruct (f a).
Qed.

Lemma strict_match_app existing news key :
  strict_match existing key <> None ->
  strict_match (existing ++ news) key <> None.
Proof.
  unfold strict_match. intros H E. now apply find_app_None in E.
Qed.

(** With more categories a sheet asks the resolver for no other token. *)
Lemma sheet_tokens_more host existing news src headers uniq rawData t :
  In t (sheet_tokens host (existing ++ news) src headers uniq rawData) ->
  In t (sheet_tokens host existing src headers uniq rawData).
Proof.
  assert (Hrow : forall explicit row t',
             In t' (list_row_tokens host (existing ++ news) explicit row) ->
             In t' (list_row_tokens host existing explicit row)).
  { intros explicit row t'. unfold list_row_tokens.
    destruct (list_amount host row); [|trivial].
    destruct (if_truthy _); [trivial|].
    destruct (find _ (existing ++ news)) eqn:F; [intros []|].
    apply find_app_None in F. now rewrite F. }
  unfold sheet_tokens. destruct src; [| |trivial];
    rewrite !in_flat_map; intros (row & Hin & Ht); exists row; auto.
Qed.

Lemma ai_step_silent existing oracle l :
  (forall batch cats, oracle batch cats = None
                      \/ oracle batch cats = Some no_mapping) ->
  ai_step existing oracle l = no_mapping.
Proof.
  intros H. unfold ai_step. destruct (0 <? List.length l)%nat; [|reflexivity].
  destruct (H (firstn 1000 l) existing) as [-> | ->]; reflexivity.
Qed.

Lemma fold_left_same {A B} (f g : A -> B -> A) l :
  (forall a b, f a b = g a b) ->
  forall a, fold_left f l a = fold_left g l a.
Proof.
  intros H. induction l as [|b l IH]; intros a; [reflexivity|].
  cbn [fold_left]. now rewrite H, IH.
Qed.

(** Two hosts that print dates alike read the same tokens in a sheet. *)
Section SameDates.

Variables host host' : Host.
Hypothesis same_dates :
  forall t, dateToString host' t = dateToString host t.

Lemma cell_toString_same v : cell_toString host' v = cell_toString host v.
Proof. destruct v; cbn [cell_toString]; [reflexivity..|apply same_dates]. Qed.

Lemma list_amount_same row : list_amount host' row = list_amount host row.
Proof.
  unfold list_amount.
  destruct (getVal row amount_aliases) as [c|]; [|reflexivity].
  now rewrite cell_toString_same.
Qed.

Lemma matrix_amount_same v : matrix_amount host' v = matrix_amount host v.
Proof.
  unfold matrix_amount. destruct v as [c|]; [|reflexivity].
  destruct c; try reflexivity; now rewrite cell_toString_same.
Qed.

Lemma column_values_same aliases rawData :
  column_values host' aliases rawData = column_values host aliases rawData.
Proof.
  unfold column_values. apply fold_left_same. intros set row.
  destruct (if_truthy _); [|reflexivity]. now rewrite cell_toString_same.
Qed.

Lemma category_source_same headers rawData :
  category_source host' headers rawData
  = category_source host headers rawData.
Proof.
  unfold category_source, shouldUseDescription.
  now rewrite !column_values_same.
Qed.

Lemma sheet_tokens_same existing src headers uniq rawData :
  sheet_tokens host' existing src headers uniq rawData
  = sheet_tokens host existing src headers uniq rawData.
Proof.
  assert (Hrow : forall explicit row,
             list_row_tokens host' existing explicit row
             = list_row_tokens host existing explicit row).
  { intros explicit row. unfold list_row_tokens.
    rewrite list_amount_same.
    destruct (list_amount host row); [|reflexivity].
    destruct (if_truthy _); [|reflexivity].
    now rewrite cell_toString_same. }
  unfold sheet_tokens. destruct src.
  - apply flat_map_ext. intros row. apply Hrow.
  - apply flat_map_ext. intros row. apply Hrow.
  - destruct (find is_date_header headers) as [dateKey|]; [|reflexivity].
    apply flat_map_ext. intros row. unfold matrix_row_tokens.
    destruct (row_get row dateKey) as [v|]; [|reflexivity].
    rewrite cell_toString_same.
    destruct (negb (cell_truthy v)); [reflexivity|].
    destruct (includes _ "total" || includes _ "final"); [reflexivity|].
    apply filter_ext. intros h. now rewrite matrix_amount_same.
Qed.

End SameDates.

(** X12.  A sheet imported again makes no category again.  When neither
    call gets an answer of the oracle (it fails or answers the empty
    mapping), the first import is confirmed, and the same sheet is
    imported once more by a host that prints date cells as the first did,
    whatever its clock, identifiers and colours, then the second import
    makes no new category but, for a blank token, the placeholder
    [Imported Misc]: every other token is found by its name among the
    categories of the first import. *)
Theorem reimport_makes_no_category :
  forall (host host' : Host)
         (oracle oracle' : list string -> list Category -> option AiMapping)
         (rawData : list ParsedRow) (s : App.State),
    (forall batch cats, oracle batch cats = None
                        \/ oracle batch cats = Some no_mapping) ->
    (forall batch cats, oracle' batch cats = None
                        \/ oracle' batch cats = Some no_mapping) ->
    (forall t, dateToString host' t = dateToString host t) ->
    let first := parseFile host (App.st_categories s) oracle rawData in
    let s1 := App.addExpenses (expenses first) (newCategories first) s in
    Forall (fun c => cat_name c = "Imported Misc")
           (newCategories
              (parseFile host' (App.st_categories s1) oracle' rawData)).
Proof.
  intros host host' oracle oracle' rawData s Horacle Horacle' Hdates
         first s1.
  subst s1 first. cbn [App.addExpenses App.st_categories].
  set (existing := App.st_categories s).
  unfold parseFile. destruct rawData as [|row rest]; [constructor|].
  rewrite (category_source_same host host' Hdates).
  destruct (category_source host (keys row) (row :: rest)) as [src set].
  rewrite (ai_step_silent _ oracle) by exact Horacle.
  rewrite (ai_step_silent _ oracle') by exact Horacle'.
  set (uniq := uniqueRawCategories_of set).
  pose proof (process_rows_covers host existing src (keys row) uniq
                (row :: rest)) as Hcov.
  pose proof (process_rows_entries host existing no_mapping src (keys row)
                uniq (row :: rest)) as [Hentries1 _].
  destruct (process_rows host existing no_mapping src (keys row) uniq
                         (row :: rest)) as [st1 acc1].
  cbn [newCategories fst] in *.
  set (existing2 := (existing ++ JsMap.values (newCategoriesCreatedMap st1))
                    %list).
  pose proof (process_rows_entries host' existing2 no_mapping src (keys row)
                uniq (row :: rest)) as [Hentries2 _].
  assert (Hblank : blank_only
                     (process_rows host' existing2 no_mapping src (keys row)
                                   uniq (row :: rest))).
  { apply process_rows_blank_only. intros t Ht.
    rewrite (sheet_tokens_same host host' Hdates) in Ht.
    apply sheet_tokens_more in Ht.
    destruct (String.eqb_spec (token_key t) "") as [E|E]; [now left|].
    right. destruct (Hcov t Ht) as [H|H].
    - now apply strict_match_app.
    - destruct (JsMap.get (newCategoriesCreatedMap st1) (token_key t))
        as [c|] eqn:G; [|contradiction].
      assert (Hin : In (token_key t, c) (newCategoriesCreatedMap st1)).
      { clear - G. induction (newCategoriesCreatedMap st1) as [|[k v] m IH];
          [discriminate|]. cbn [JsMap.get] in G.
        destruct (String.eqb_spec k (token_key t)) as [->|];
          [injection G as ->; now left | right; auto]. }
      rewrite Forall_forall in Hentries1.
      destruct (Hentries1 _ Hin) as (_ & _ & _ & [[_ Hname]|[Hk _]]);
        [|contradiction].
      unfold strict_match. intros F.
      eapply find_none in F.
      + cbn in F. rewrite Hname, String.eqb_refl in F. discriminate.
      + apply in_or_app. right. apply (JsMap_get_values _ _ _ G). }
  destruct (process_rows host' existing2 no_mapping src (keys row) uniq
                         (row :: rest)) as [st2 acc2].
  unfold blank_only in Hblank. cbn [newCategories fst] in *.
  unfold JsMap.values. apply Forall_map.
  rewrite Forall_forall in *. intros [k c] Hin. cbn [snd].
  pose proof (Hblank _ Hin) as Hk. cbn [fst] in Hk. subst k.
  destruct (Hentries2 _ Hin) as (_ & _ & _ & [[Hk _]|[_ Hname]]);
    [now elim Hk | exact Hname].
Qed.

(** The sheet of two rows imported twice without the oracle. *)
Lemma reimport_makes_no_category_witness :
  let first :=
    parseFile Sample.host Sample.categories Sample.failing_oracle
              Sample.case_sheet in
  newCategories first <> [] /\
  Forall (fun c => cat_name c = "Imported Misc")
         (newCategories
            (parseFile sample_later_host
                       (Sample.categories ++ newCategories first)
                       Sample.failing_oracle Sample.case_sheet)).
Proof.
  split; [vm_compute; discriminate|].
  apply (reimport_makes_no_category Sample.host sample_later_host
           Sample.failing_oracle Sample.failing_oracle Sample.case_sheet
           sample_state).
  - intros batch cats. left. reflexivity.
  - intros batch cats. left. reflexivity.
  - intros t. reflexivity.
Defined.

(** ** Cells in order *)

Lemma matrix_cells_fields host existing ai row dateStr uniq :
  forall run,
    map expense_fields
        (snd (fold_left (matrix_cell host existing ai row dateStr) uniq run))
    = (map expense_fields (snd run)
       ++ map (fun h => (matrix_amount host (row_get row h), dateStr,
                         CStr "Imported via Matrix"))
              (filter (fun h =>
                         let amount := matrix_amount host (row_get row h) in
                         negb (JsNumber.isNaN amount)
                         && JsNumber.is_positive amount)
                      uniq))%list.
Proof.
  induction uniq as [|h uniq IH]; intros [st acc];
    cbn [fold_left filter map snd].
  - now rewrite app_nil_r.
  - rewrite IH. unfold matrix_cell.
    destruct (negb _ && _).
    + destruct (resolveCategory host existing ai h st) as [result st1].
      cbn [push snd map]. rewrite map_app, <- app_assoc. reflexivity.
    + reflexivity.
Qed.

Lemma matrix_rows_fields host existing ai dateKey uniq rows :
  forall run,
    map expense_fields
        (snd (fold_left (matrix_row host existing ai dateKey uniq) rows run))
    = (map expense_fields (snd run)
       ++ flat_map (matrix_row_fields host dateKey uniq) rows)%list.
Proof.
  induction rows as [|row rows IH]; intros run; cbn [fold_left flat_map].
  - now rewrite app_nil_r.
  - rewrite IH, app_assoc. f_equal.
    unfold matrix_row, matrix_row_fields, matrix_row_tokens.
    destruct (row_get row dateKey) as [v|]; [|cbn; now rewrite app_nil_r].
    destruct (negb (cell_truthy v)); [cbn; now rewrite app_nil_r|].
    destruct (includes _ "total" || includes _ "final");
      [cbn; now rewrite app_nil_r|].
    apply matrix_cells_fields.
Qed.

Lemma process_rows_matrix_fields host existing m headers uniq rawData
    dateKey :
  find is_date_header headers = Some dateKey ->
  map expense_fields
      (snd (process_rows host existing m matrix headers uniq rawData))
  = flat_map (matrix_row_fields host dateKey uniq) rawData.
Proof.
  intros Hd. unfold process_rows. rewrite Hd.
  exact (matrix_rows_fields host existing m dateKey uniq rawData
           (new_session, [])).
Qed.

(** X13.  In Matrix mode the expenses follow the cells.  The import
    returns a result unless the oracle answered [null]; and whenever it
    returns one, row after row, and in a row header after header, each
    cell under a category header that holds a positive amount has given
    one expense, with that amount, the date of the row and the notes
    [Imported via Matrix]; a row without a date, or whose date cell reads
    [total] or [final], has given none.  The answer of the oracle and the
    categories have no part in it. *)
Theorem matrix_mode_expenses_follow_cells :
  forall (host : Host) (existing : list Category)
         (oracle : list string -> list Category -> option OracleAnswer)
         (rawData : list ParsedRow),
    isMatrixMode (keys (hd [] rawData)) = true ->
    exists dateKey,
      find is_date_header (keys (hd [] rawData)) = Some dateKey /\
      (forall result,
          Promise.parseFile host existing oracle rawData = Some result ->
          map (fun e => (exp_amount e, exp_date e, exp_notes e))
              (expenses result)
          = flat_map
              (matrix_row_fields host dateKey
                 (uniqueRawCategories_of
                    (snd (category_source host (keys (hd [] rawData))
                                          rawData))))
              rawData) /\
      (oracle (oracle_batch host rawData) existing <> Some answer_null ->
       exists result,
         Promise.parseFile host existing oracle rawData = Some result).
Proof.
  intros host existing oracle rawData Hm.
  destruct rawData as [|first rest]; [discriminate|]. cbn [hd] in *.
  rewrite Promise_parseFile_rows. unfold oracle_batch. cbn [hd].
  set (source := category_source host (keys first) (first :: rest)).
  set (uniq := uniqueRawCategories_of (snd source)).
  assert (Hd : exists dateKey,
             find is_date_header (keys first) = Some dateKey).
  { unfold isMatrixMode in Hm.
    destruct (find is_date_header (keys first)) as [dateKey|];
      [now exists dateKey | discriminate]. }
  destruct Hd as [dateKey Hd].
  assert (Hsrc : fst source = matrix).
  { subst source. unfold category_source. now rewrite Hm, Hd. }
  exists dateKey. split; [exact Hd|]. split.
  - intros result H.
    destruct (Promise.process_rows _ _ _ _ _ _ _) as [run|] eqn:Hrun;
      [|discriminate].
    injection H as <-. cbn [expenses].
    apply Promise_process_rows_some in Hrun as [m ->]. rewrite Hsrc.
    now apply process_rows_matrix_fields.
  - intros Hanswer.
    destruct (Promise.ai_step existing oracle uniq) as [|m] eqn:Hstep.
    + apply Promise_ai_step_null in Hstep as [_ Hnull]. now elim Hanswer.
    + rewrite Promise_process_rows_value. now eexists.
Qed.

(** The matrix sheet of the samples, the oracle failing: the cells of
    [Food] and [Rent] give an expense each, the cell of [Total] none. *)
Lemma matrix_mode_expenses_follow_cells_witness :
  exists result,
    Promise.parseFile Sample.host Sample.categories (fun _ _ => None)
                      Sample.matrix_sheet = Some result
    /\ map (fun e => (exp_amount e, exp_date e, exp_notes e))
           (expenses result)
       = [(JFin 1200 0, "2024-03-05", CStr "Imported via Matrix");
          (JFin 5000 0, "2024-03-05", CStr "Imported via Matrix")].
Proof.
  destruct (matrix_mode_expenses_follow_cells Sample.host Sample.categories
              (fun _ _ => None) Sample.matrix_sheet eq_refl)
    as (dateKey & Hd & Hcells & Hresult).
  destruct (Hresult ltac:(discriminate)) as [result Hres].
  exists result. split; [exact Hres|].
  rewrite (Hcells result Hres).
  vm_compute in Hd. injection Hd as <-. vm_compute. reflexivity.
Defined.

(** ** A rejected import *)

(** X14.  The promise of [parseFile] is rejected in one case only: the
    oracle was asked, for a batch that is not empty, and answered [null],
    and some row asks for a category to be resolved.  With an oracle that
    never answers [null] the promise is resolved, with the result of
    [parseFile]. *)
Theorem import_rejected_iff :
  forall (host : Host) (existing : list Category)
         (rawData : list ParsedRow),
    let headers := keys (hd [] rawData) in
    let source := category_source host headers rawData in
    let uniq := uniqueRawCategories_of (snd source) in
    (forall oracle,
        Promise.parseFile host existing oracle rawData = None <->
        oracle_batch host rawData <> [] /\
        oracle (oracle_batch host rawData) existing = Some answer_null /\
        sheet_tokens host existing (fst source) headers uniq rawData <> [])
    /\ (forall oracle,
           Promise.parseFile host existing (with_properties oracle) rawData
           = Some (parseFile host existing oracle rawData)).
Proof.
  intros host existing rawData headers source uniq.
  split; [|intros oracle; apply parseFile_of_promise].
  intros oracle. subst headers source uniq. unfold oracle_batch.
  destruct rawData as [|first rest].
  { cbn. split; [discriminate | now intros [H _]]. }
  cbn [hd]. rewrite Promise_parseFile_rows.
  set (source := category_source host (keys first) (first :: rest)).
  set (uniq := uniqueRawCategories_of (snd source)).
  assert (Hbatch : firstn 1000 uniq <> [] <-> uniq <> []).
  { destruct uniq; [tauto | split; discriminate]. }
  rewrite Hbatch, <- and_assoc, <- Promise_ai_step_null.
  destruct (Promise.ai_step existing oracle uniq) as [|m].
  - rewrite Promise_process_rows_null.
    destruct (sheet_tokens _ _ _ _ _ _) as [|t ts].
    + split; [discriminate | now intros [_ H]].
    + split; [intros _; split; [reflexivity | discriminate] | reflexivity].
  - rewrite Promise_process_rows_value.
    split; [discriminate | intros [H _]; discriminate].
Qed.

(** The sample sheet of two rows and an oracle that answers [null]: the
    import is rejected. *)
Lemma import_rejected_iff_witness :
  Promise.parseFile Sample.host Sample.categories
                    (fun _ _ => Some answer_null) Sample.case_sheet
  = None.
Proof.
  apply (proj1 (import_rejected_iff Sample.host Sample.categories
                  Sample.case_sheet)).
  split; [vm_compute; discriminate|].
  split; [reflexivity | vm_compute; discriminate].
Defined.
